(** * k8s-pvc-tagger: the process entry point ([main.go])

    A shallow embedding of [main], [run], [statusHandler] and
    [runWatchNamespaceTask], and of the parts of the Go standard library
    and of client-go's leader election they call.  Strings are byte
    strings ([string] of [ascii]); the process outcome is explicit
    ([Outcome]); goroutines are entries of a task table moved by a step
    relation. *)

From Stdlib Require Import String Ascii List Bool Arith ZArith Lia.
Import ListNotations.
Open Scope string_scope.

(** ** Go [strings]: the functions [strings.Split] runs *)

Module GoStrings.

(** [s[n:]] on bytes. *)
Fixpoint skip (n : nat) (s : string) : string :=
  match n, s with
  | 0, _ => s
  | S _, EmptyString => EmptyString
  | S n', String _ s' => skip n' s'
  end.

(** [s[:n]] on bytes. *)
Fixpoint take (n : nat) (s : string) : string :=
  match n, s with
  | 0, _ => EmptyString
  | S _, EmptyString => EmptyString
  | S n', String a s' => String a (take n' s')
  end.

(** [strings.HasPrefix(s, p)]. *)
Fixpoint HasPrefix (s p : string) : bool :=
  match p, s with
  | EmptyString, _ => true
  | String _ _, EmptyString => false
  | String b p', String a s' => Ascii.eqb a b && HasPrefix s' p'
  end.

(** [strings.Index(s, sep)]: the byte offset of the first occurrence of
    [sep] in [s]; [None] stands for Go's [-1]. *)
Fixpoint Index (s sep : string) : option nat :=
  if HasPrefix s sep then Some 0
  else match s with
       | EmptyString => None
       | String _ s' => option_map S (Index s' sep)
       end.

(** The loop of [strings.Count] for a non-empty separator: count the
    non-overlapping occurrences, restarting after each one.  The loop
    consumes at least one byte per round, so [length s] rounds are
    enough. *)
Fixpoint Count_loop (fuel : nat) (s sep : string) : nat :=
  match fuel with
  | 0 => 0
  | S f => match Index s sep with
           | None => 0
           | Some i => S (Count_loop f (skip (i + String.length sep) s) sep)
           end
  end.

Definition Count (s sep : string) : nat :=
  Count_loop (String.length s) s sep.

(** The [for i < n] loop of [genSplit]: [fuel] is the number of rounds
    left ([n - i]); the piece before the separator is kept and the scan
    goes on after it; the rest of the string is the last piece. *)
Fixpoint genSplit_loop (fuel : nat) (s sep : string) : list string :=
  match fuel with
  | 0 => [s]
  | S f => match Index s sep with
           | None => [s]
           | Some m => take m s :: genSplit_loop f (skip (m + String.length sep) s) sep
           end
  end.

(** [strings.Split(s, sep)] = [genSplit(s, sep, 0, -1)] for a non-empty
    [sep] (the only call in [main.go] passes [","]): [n] is
    [Count(s, sep) + 1], capped at [len(s) + 1], and the loop runs
    [n - 1] rounds. *)
Definition Split (s sep : string) : list string :=
  let n := Count s sep + 1 in
  let n := if Nat.ltb (String.length s + 1) n then String.length s + 1 else n in
  genSplit_loop (n - 1) s sep.

(** [strings.Join(a, sep)]. *)
Fixpoint Join (a : list string) (sep : string) : string :=
  match a with
  | [] => EmptyString
  | [x] => x
  | x :: rest => x ++ sep ++ Join rest sep
  end.

(** [strings.Contains(s, sep)]. *)
Definition Contains (s sep : string) : bool :=
  match Index s sep with Some _ => true | None => false end.

End GoStrings.

(** ** [run]: the dispatcher tasks started on becoming leader *)

(** A [go runWatchNamespaceTask(ctx, ns)] statement: the goroutine started
    and the namespace it was given. *)
Record GoStmt := Go_runWatchNamespaceTask { task_namespace : string }.

(** [main.go], [run]: the namespaces are the pieces of [watchNamespace]
    split on commas, or the single empty string (all namespaces) when it is
    empty; one goroutine is started per entry, in order. *)
Definition namespaces (watchNamespace : string) : list string :=
  if String.eqb watchNamespace "" then [] ++ [""]
  else GoStrings.Split watchNamespace ",".

Definition run (watchNamespace : string) : list GoStmt :=
  map Go_runWatchNamespaceTask (namespaces watchNamespace).

(** ** [statusHandler] *)

Module Http.

Definition StatusOK : Z := 200.
Definition StatusNotImplemented : Z := 501.

Record Request := { Method : string; URLPath : string }.

(** What an [http.ResponseWriter] has been told: the status line, once
    written, and the body bytes. *)
Record ResponseWriter := { status : option Z; body : string }.

Definition newResponse : ResponseWriter := {| status := None; body := "" |}.

(** [w.WriteHeader(code)]: the first call fixes the status. *)
Definition WriteHeader (code : Z) (w : ResponseWriter) : ResponseWriter :=
  match status w with
  | None => {| status := Some code; body := body w |}
  | Some _ => w
  end.

(** [w.Write(b)]: writes the header with [StatusOK] when none was
    written, then the bytes.  [fails] is the transport error the call
    may return; the bytes are then not delivered. *)
Definition Write (b : string) (fails : bool) (w : ResponseWriter)
  : ResponseWriter * bool :=
  let w' := WriteHeader StatusOK w in
  if fails then (w', true)
  else ({| status := status w'; body := body w' ++ b |}, false).

End Http.

Inductive LogLevel := DebugLevel | InfoLevel | ErrorLevel | FatalLevel.

Record LogEntry := { level : LogLevel; message : string }.

(** [main.go], [statusHandler].  [writeFails] is whether [w.Write] returns
    an error; the error is logged and nothing else happens. *)
Definition statusHandler (writeFails : bool) (r : Http.Request)
  : Http.ResponseWriter * list LogEntry :=
  let w := Http.newResponse in
  if negb (String.eqb (Http.Method r) "GET") then
    let w := Http.WriteHeader Http.StatusNotImplemented w in
    let '(w, err) := Http.Write "method is not implemented" writeFails w in
    (w, if err then [{| level := ErrorLevel; message := "Cannot write status message:" |}] else [])
  else
    let '(w, err) := Http.Write "OK" writeFails w in
    (w, if err then [{| level := ErrorLevel; message := "Cannot write status message:" |}] else []).

(** ** Process configuration: flags, environment, and what [main] calls *)

(** The command line after [flag.Parse]: [None] is a flag that was not
    given, so that its default applies. *)
Record Flags := {
  flag_kubeconfig : option string;
  flag_context : option string;
  flag_region : option string;
  flag_lease_id : option string;
  flag_lease_lock_name : option string;
  flag_lease_lock_namespace : option string;
  flag_default_tags : option string;
  flag_annotation_prefix : option string;
  flag_watch_namespace : option string;
  flag_status_port : option string;
  flag_metrics_port : option string
}.

Definition noFlags : Flags :=
  {| flag_kubeconfig := None; flag_context := None; flag_region := None;
     flag_lease_id := None; flag_lease_lock_name := None;
     flag_lease_lock_namespace := None; flag_default_tags := None;
     flag_annotation_prefix := None; flag_watch_namespace := None;
     flag_status_port := None; flag_metrics_port := None |}.

(** [os.Getenv] of the variables [main] reads; an unset variable is [""]. *)
Record Env := {
  AWS_REGION : string;
  NAMESPACE : string;
  WATCH_NAMESPACE : string
}.

(** [flag.StringVar(&v, name, value, usage)] followed by [flag.Parse]. *)
Definition StringVar (given : option string) (value : string) : string :=
  match given with
  | Some v => v
  | None => value
  end.

Definition TagMap := list (string * string).

(** The functions and the constant [main] uses that are declared in the
    other files of the package or in imported packages.  A Go [error] is
    [option string]: [None] is [nil]. *)
Record Externals := {
  (** [uuid.New().String()], evaluated once, when the flag is declared *)
  uuid_New : string;
  (** [getCurrentNamespace()] *)
  getCurrentNamespace : string;
  (** [getMetadataRegion()]: the region and the error *)
  getMetadataRegion : string * option string;
  (** the pattern [regexpAWSRegion] *)
  regexpAWSRegion : string;
  (** [regexp.Match(pattern, b)]: whether it matched, and the error of a
      pattern that does not compile *)
  regexp_Match : string -> string -> bool * option string;
  (** [json.Unmarshal(data, &m)] on a nil [map[string]string]: the map
      after the call and the error *)
  json_Unmarshal : string -> TagMap * option string;
  (** [createAWSSession(region)]; [false] is a nil session *)
  createAWSSession : string -> bool;
  (** [buildClient(kubeconfig, context)]: the error *)
  buildClient : string -> string -> option string
}.

Module Duration.
(** [time.Duration]: nanoseconds in an int64. *)
Definition Second : Z := 1000000000.
End Duration.

(** [resourcelock.LeaseLock]: [LeaseMeta.Name], [LeaseMeta.Namespace] and
    [LockConfig.Identity]. *)
Record LeaseLock := {
  Name : string;
  Namespace : string;
  Identity : string
}.

(** [leaderelection.LeaderElectionConfig], without the callbacks (they are
    the steps of [Election] below). *)
Record LeaderElectionConfig := {
  Lock : LeaseLock;
  ReleaseOnCancel : bool;
  LeaseDuration : Z;
  RenewDeadline : Z;
  RetryPeriod : Z
}.

(** The package-level variables and the locals of [main] that are set by
    the time [leaderelection.RunOrDie] is called. *)
Record Started := {
  election : LeaderElectionConfig;
  leaseID : string;
  region : string;
  defaultTags : TagMap;
  annotationPrefix : string;
  watchNamespace : string;
  statusPort : string;
  metricsPort : string
}.

(** How [main] ends: [log.Fatalln] (the message is logged and the process
    exits with status 1), [os.Exit], or the call of
    [leaderelection.RunOrDie], the only place from which [run] and so any
    dispatcher can be started. *)
Inductive Outcome :=
| Fatal (msg : string)
| Exit (code : Z)
| RunOrDie (st : Started).

Definition exitStatus (o : Outcome) : option Z :=
  match o with
  | Fatal _ => Some 1%Z
  | Exit c => Some c
  | RunOrDie _ => None
  end.

(** Sequencing of the start-up checks: the first fatal check ends [main]. *)
Definition Check (A : Type) : Type := (Outcome + A)%type.

Definition bind {A} (c : Check A) (k : A -> Outcome) : Outcome :=
  match c with
  | inl o => o
  | inr a => k a
  end.

Notation "x <- c ;; k" := (bind c (fun x => k))
  (at level 61, c at next level, right associativity).
Notation "'check' c ;; k" := (bind c (fun _ : unit => k))
  (at level 61, c at next level, right associativity).

Definition fatalIf (b : bool) (msg : string) : Check unit :=
  if b then inl (Fatal msg) else inr tt.

(** ** [main] *)

Section Main.

Variable x : Externals.
Variable env : Env.
Variable fl : Flags.

(** Lines 117-119: an empty lock name is fatal. *)
Definition checkLeaseLockName (leaseLockName : string) : Check unit :=
  fatalIf (String.eqb leaseLockName "")
    "unable to get lease lock resource name (missing lease-lock-name flag).".

(** Lines 120-125: an empty lock namespace is replaced by
    [getCurrentNamespace()]; if that is empty too, fatal. *)
Definition resolveLeaseLockNamespace (leaseLockNamespace : string) : Check string :=
  if String.eqb leaseLockNamespace "" then
    let leaseLockNamespace := getCurrentNamespace x in
    if String.eqb leaseLockNamespace "" then
      inl (Fatal "unable to get lease lock resource namespace (missing lease-lock-namespace flag).")
    else inr leaseLockNamespace
  else inr leaseLockNamespace.

(** Lines 127-134: a non-empty [default-tags] is decoded by
    [json.Unmarshal]; an error is fatal; otherwise the decoded map is
    [defaultTags] as it is.  An empty string leaves the nil map. *)
Definition loadDefaultTags (defaultTagsString : string) : Check TagMap :=
  if negb (String.eqb defaultTagsString "") then
    let '(m, err) := json_Unmarshal x defaultTagsString in
    match err with
    | Some e => inl (Fatal ("default-tags are not valid json key/value pairs: " ++ e))
    | None => inr m
    end
  else inr [].

(** Lines 136-147: an empty region is replaced by the result of
    [getMetadataRegion()], whose error is dropped; the region is then
    matched against [regexpAWSRegion]. *)
Definition resolveRegion (region : string) : Check string :=
  let region :=
    if Nat.eqb (String.length region) 0 then fst (getMetadataRegion x)
    else region in
  let '(ok, err) := regexp_Match x (regexpAWSRegion x) region in
  match err with
  | Some e => inl (Fatal ("Failed to parse AWS_REGION: " ++ e))
  | None =>
      if negb ok then inl (Fatal "Given AWS_REGION does not match AWS Region format.")
      else inr region
  end.

(** Lines 148-155: a nil session is logged and the process exits with
    status 1. *)
Definition checkAWSSession (region : string) : Check unit :=
  if negb (createAWSSession x region) then inl (Exit 1) else inr tt.

(** Lines 157-161. *)
Definition checkClient (kubeconfig kubeContext : string) : Check unit :=
  match buildClient x kubeconfig kubeContext with
  | Some e => inl (Fatal ("Unable to create kubernetes client " ++ e))
  | None => inr tt
  end.

(** Lines 212-252: the lock and the election configuration. *)
Definition electionConfig (leaseLockName leaseLockNamespace leaseID : string)
  : LeaderElectionConfig :=
  {| Lock := {| Name := leaseLockName;
                Namespace := leaseLockNamespace;
                Identity := leaseID |};
     ReleaseOnCancel := true;
     LeaseDuration := 60 * Duration.Second;
     RenewDeadline := 15 * Duration.Second;
     RetryPeriod := 5 * Duration.Second |}.

Definition main : Outcome :=
  let kubeconfig := StringVar (flag_kubeconfig fl) "" in
  let kubeContext := StringVar (flag_context fl) "" in
  let region := StringVar (flag_region fl) (AWS_REGION env) in
  let leaseID := StringVar (flag_lease_id fl) (uuid_New x) in
  let leaseLockName := StringVar (flag_lease_lock_name fl) "k8s-aws-ebs-tagger" in
  let leaseLockNamespace := StringVar (flag_lease_lock_namespace fl) (NAMESPACE env) in
  let defaultTagsString := StringVar (flag_default_tags fl) "" in
  let annotationPrefix := StringVar (flag_annotation_prefix fl) "aws-ebs-tagger" in
  let watchNamespace := StringVar (flag_watch_namespace fl) (WATCH_NAMESPACE env) in
  let statusPort := StringVar (flag_status_port fl) "8000" in
  let metricsPort := StringVar (flag_metrics_port fl) "8001" in
  check checkLeaseLockName leaseLockName ;;
  leaseLockNamespace <- resolveLeaseLockNamespace leaseLockNamespace ;;
  defaultTags <- loadDefaultTags defaultTagsString ;;
  region <- resolveRegion region ;;
  check checkAWSSession region ;;
  check checkClient kubeconfig kubeContext ;;
  RunOrDie {| election := electionConfig leaseLockName leaseLockNamespace leaseID;
              leaseID := leaseID;
              region := region;
              defaultTags := defaultTags;
              annotationPrefix := annotationPrefix;
              watchNamespace := watchNamespace;
              statusPort := statusPort;
              metricsPort := metricsPort |}.

End Main.

(** ** The callbacks and [runWatchNamespaceTask] under the elector *)

(** [OnStoppedLeading]: one line at info level, then [os.Exit(0)]. *)
Definition OnStoppedLeading (leaseID : string) : LogEntry * Z :=
  ({| level := InfoLevel; message := "leader lost: " ++ leaseID |}, 0%Z).

(** [OnNewLeader]: silent for the process's own identity. *)
Definition OnNewLeader (leaseID identity : string) : list LogEntry :=
  if String.eqb identity leaseID then []
  else [{| level := InfoLevel; message := "new leader elected: " ++ identity |}].

Module Election.

(** A goroutine running [runWatchNamespaceTask(ctx, namespace)]: it has
    made [ch], started [watchForPersistentVolumeClaims(ch, namespace)]
    and is blocked at [<-ctx.Done()] ([Watching]), or it has received
    from [ctx.Done()], closed [ch] and returned ([Stopped]). *)
Inductive TaskState := Watching | Stopped.

Record Task := { namespace : string; state : TaskState }.

(** Where the goroutine of [leaderelection.RunOrDie] is, in
    [LeaderElector.Run]: in [acquire]; in the loop of [renew]; out of
    that loop, before [release]; after [release], before [Run] returns;
    in the deferred [OnStoppedLeading]. *)
Inductive Phase := Acquiring | Leading | RenewEnded | Released | Stopping.

Record State := {
  (** [cancel()] of line 196 has been called *)
  rootCancelled : bool;
  (** the context [Run] derives for [OnStartedLeading] is cancelled *)
  leadCancelled : bool;
  phase : Phase;
  (** the holder this process last wrote to the Lease *)
  holder : option string;
  (** [acquire] has succeeded, [go OnStartedLeading(ctx)] was issued *)
  led : bool;
  (** that goroutine has run [run(ctx)] *)
  startedLeading : bool;
  tasks : list Task;
  (** [os.Exit] was called with this status *)
  exited : option Z;
  (** the lines logged by the signal handler and the callbacks *)
  log : list LogEntry
}.

Definition init : State :=
  {| rootCancelled := false; leadCancelled := false; phase := Acquiring;
     holder := None; led := false; startedLeading := false; tasks := [];
     exited := None; log := [] |}.

(** [ctx.Done()] of the context the tasks were given is closed. *)
Definition ctxDone (s : State) : bool := rootCancelled s || leadCancelled s.

Definition spawn (g : GoStmt) : Task :=
  {| namespace := task_namespace g; state := Watching |}.

Definition isWatching (t : Task) : bool :=
  match state t with Watching => true | Stopped => false end.

(** The task at index [i] returns. *)
Fixpoint stopTask (i : nat) (ts : list Task) : list Task :=
  match ts, i with
  | [], _ => []
  | t :: ts', 0 => {| namespace := namespace t; state := Stopped |} :: ts'
  | t :: ts', S i' => t :: stopTask i' ts'
  end.

Section Steps.

Variable cfg : Started.

(** One scheduling step of the process after [main] has called
    [leaderelection.RunOrDie(ctx, ...)].  No step is enabled once
    [os.Exit] has been called. *)
Inductive step : State -> State -> Prop :=
(** [acquire] wrote the Lease with the lock's identity; [Run] issues
    [go OnStartedLeading(ctx)] and enters [renew] *)
| Acquire s :
    exited s = None -> phase s = Acquiring -> rootCancelled s = false ->
    step s {| rootCancelled := rootCancelled s; leadCancelled := leadCancelled s;
              phase := Leading;
              holder := Some (Identity (Lock (election cfg)));
              led := true; startedLeading := startedLeading s;
              tasks := tasks s; exited := None; log := log s |}
(** [acquire] returned false: the context was cancelled first *)
| AcquireCancelled s :
    exited s = None -> phase s = Acquiring -> rootCancelled s = true ->
    step s {| rootCancelled := true; leadCancelled := leadCancelled s;
              phase := Stopping; holder := holder s; led := led s;
              startedLeading := startedLeading s; tasks := tasks s;
              exited := None; log := log s |}
(** the goroutine of [OnStartedLeading] runs [run(ctx)] *)
| StartedLeading s :
    exited s = None -> led s = true -> startedLeading s = false ->
    step s {| rootCancelled := rootCancelled s; leadCancelled := leadCancelled s;
              phase := phase s; holder := holder s; led := true;
              startedLeading := true;
              tasks := map spawn (run (watchNamespace cfg));
              exited := None; log := log s |}
(** lines 204-208: a signal arrived, [cancel()] *)
| Signal s :
    exited s = None -> rootCancelled s = false ->
    step s {| rootCancelled := true; leadCancelled := leadCancelled s;
              phase := phase s; holder := holder s; led := led s;
              startedLeading := startedLeading s; tasks := tasks s;
              exited := None;
              log := log s ++ [{| level := InfoLevel;
                                  message := "Received termination, signaling shutdown" |}] |}
(** [renew]: the lease could not be renewed within the deadline *)
| RenewFailed s :
    exited s = None -> phase s = Leading ->
    step s {| rootCancelled := rootCancelled s; leadCancelled := leadCancelled s;
              phase := RenewEnded; holder := holder s; led := led s;
              startedLeading := startedLeading s; tasks := tasks s;
              exited := None; log := log s |}
(** [renew]: the context is done, the loop ends *)
| RenewCancelled s :
    exited s = None -> phase s = Leading -> rootCancelled s = true ->
    step s {| rootCancelled := true; leadCancelled := leadCancelled s;
              phase := RenewEnded; holder := holder s; led := led s;
              startedLeading := startedLeading s; tasks := tasks s;
              exited := None; log := log s |}
(** [renew], after the loop: [ReleaseOnCancel] makes it call
    [release], which writes the Lease with no holder *)
| Release s :
    exited s = None -> phase s = RenewEnded ->
    ReleaseOnCancel (election cfg) = true ->
    step s {| rootCancelled := rootCancelled s; leadCancelled := leadCancelled s;
              phase := Released; holder := None; led := led s;
              startedLeading := startedLeading s; tasks := tasks s;
              exited := None; log := log s |}
(** [renew], after the loop, without [ReleaseOnCancel]: the Lease is
    left to expire *)
| KeepLease s :
    exited s = None -> phase s = RenewEnded ->
    ReleaseOnCancel (election cfg) = false ->
    step s {| rootCancelled := rootCancelled s; leadCancelled := leadCancelled s;
              phase := Released; holder := holder s; led := led s;
              startedLeading := startedLeading s; tasks := tasks s;
              exited := None; log := log s |}
(** [Run] returns: its deferred [cancel()] ends the context given to
    [OnStartedLeading] *)
| RunReturns s :
    exited s = None -> phase s = Released ->
    step s {| rootCancelled := rootCancelled s; leadCancelled := true;
              phase := Stopping; holder := holder s; led := led s;
              startedLeading := startedLeading s; tasks := tasks s;
              exited := None; log := log s |}
(** the deferred [OnStoppedLeading] *)
| StoppedLeading s :
    exited s = None -> phase s = Stopping ->
    step s {| rootCancelled := rootCancelled s; leadCancelled := leadCancelled s;
              phase := Stopping; holder := holder s; led := led s;
              startedLeading := startedLeading s; tasks := tasks s;
              exited := Some (snd (OnStoppedLeading (leaseID cfg)));
              log := log s ++ [fst (OnStoppedLeading (leaseID cfg))] |}
(** lines 278-279: task [i] receives from [ctx.Done()], closes [ch]
    and returns *)
| TaskStops s i t :
    exited s = None -> nth_error (tasks s) i = Some t ->
    state t = Watching -> ctxDone s = true ->
    step s {| rootCancelled := rootCancelled s; leadCancelled := leadCancelled s;
              phase := phase s; holder := holder s; led := led s;
              startedLeading := startedLeading s;
              tasks := stopTask i (tasks s);
              exited := None; log := log s |}.

(** The states the process can be in. *)
Inductive reachable : State -> Prop :=
| reach_init : reachable init
| reach_step s s' : reachable s -> step s s' -> reachable s'.

End Steps.

(** The process holds the Lease or has given it up. *)
Definition leaseReleased (s : State) : bool :=
  led s && match holder s with None => true | Some _ => false end.

(** Some dispatcher task has not returned. *)
Definition dispatcherRunning (s : State) : bool :=
  existsb isWatching (tasks s).

(** Leadership was held and is lost: the elector is past [renew]'s loop. *)
Definition lostLeadership (s : State) : bool :=
  led s && match phase s with
           | RenewEnded | Released | Stopping => true
           | Acquiring | Leading => false
           end.

End Election.

(** ** A sample deployment, for evaluating the definitions *)

Module Sample.

Definition dq : string := String (Ascii.ascii_of_nat 34) "".

(** [{"<k>":"<v>"}] *)
Definition object1 (k v : string) : string :=
  "{" ++ dq ++ k ++ dq ++ ":" ++ dq ++ v ++ dq ++ "}".

Fixpoint replicate (n : nat) (a : ascii) : string :=
  match n with
  | 0 => EmptyString
  | S n' => String a (replicate n' a)
  end.

(** A tag key of 300 bytes. *)
Definition longKey : string := replicate 300 "k"%char.

(** An environment in which the pod runs in namespace [kube-system] on
    an instance of region [eu-west-1]; the pattern accepts the names
    made of two lower-case letters, a dash, lower-case letters, a dash
    and a digit; the decoder knows three documents. *)
Definition isLower (a : ascii) : bool :=
  let n := Ascii.nat_of_ascii a in Nat.leb 97 n && Nat.leb n 122.

Definition isDigit (a : ascii) : bool :=
  let n := Ascii.nat_of_ascii a in Nat.leb 48 n && Nat.leb n 57.

Fixpoint lowerThenDashDigit (first : bool) (s : string) : bool :=
  match s with
  | String a s' =>
      if isLower a then lowerThenDashDigit false s'
      else negb first && Ascii.eqb a "-"%char &&
           match s' with
           | String d EmptyString => isDigit d
           | _ => false
           end
  | EmptyString => false
  end.

Definition regionSyntax (s : string) : bool :=
  match s with
  | String a (String b (String c s')) =>
      isLower a && isLower b && Ascii.eqb c "-"%char && lowerThenDashDigit true s'
  | _ => false
  end.

Definition decode (data : string) : TagMap * option string :=
  if String.eqb data (object1 "team" "infra") then ([("team", "infra")], None)
  else if String.eqb data (object1 longKey "x") then ([(longKey, "x")], None)
  else if String.eqb data "{}" then ([], None)
  else ([], Some "invalid character").

Definition world : Externals :=
  {| uuid_New := "6ba7b810-9dad-41d1-80b4-00c04fd430c8";
     getCurrentNamespace := "kube-system";
     getMetadataRegion := ("eu-west-1", None);
     regexpAWSRegion := "^[a-z]{2}-[a-z]+-[0-9]$";
     regexp_Match := fun _ b => (regionSyntax b, None);
     json_Unmarshal := decode;
     createAWSSession := fun _ => true;
     buildClient := fun _ _ => None |}.

(** The same pod off the cloud: the metadata service does not answer
    and the namespace file is missing. *)
Definition offCloud : Externals :=
  {| uuid_New := uuid_New world;
     getCurrentNamespace := "";
     getMetadataRegion := ("", Some "EC2MetadataRequestError");
     regexpAWSRegion := regexpAWSRegion world;
     regexp_Match := regexp_Match world;
     json_Unmarshal := decode;
     createAWSSession := fun _ => true;
     buildClient := fun _ _ => None |}.

Definition noEnv : Env :=
  {| AWS_REGION := ""; NAMESPACE := ""; WATCH_NAMESPACE := "" |}.

Definition env1 : Env :=
  {| AWS_REGION := "us-east-1"; NAMESPACE := "tagger"; WATCH_NAMESPACE := "ns1,ns2" |}.

(** [-lease-id=replica-a] *)
Definition flagsLeaseID : Flags :=
  {| flag_kubeconfig := None; flag_context := None; flag_region := None;
     flag_lease_id := Some "replica-a"; flag_lease_lock_name := None;
     flag_lease_lock_namespace := None; flag_default_tags := None;
     flag_annotation_prefix := None; flag_watch_namespace := None;
     flag_status_port := None; flag_metrics_port := None |}.

(** [-default-tags={"kkk...k":"x"}] *)
Definition flagsLongKey : Flags :=
  {| flag_kubeconfig := None; flag_context := None; flag_region := None;
     flag_lease_id := None; flag_lease_lock_name := None;
     flag_lease_lock_namespace := None;
     flag_default_tags := Some (object1 longKey "x");
     flag_annotation_prefix := None; flag_watch_namespace := None;
     flag_status_port := None; flag_metrics_port := None |}.

(** [-default-tags={team] *)
Definition flagsBadJSON : Flags :=
  {| flag_kubeconfig := None; flag_context := None; flag_region := None;
     flag_lease_id := None; flag_lease_lock_name := None;
     flag_lease_lock_namespace := None;
     flag_default_tags := Some "{team";
     flag_annotation_prefix := None; flag_watch_namespace := None;
     flag_status_port := None; flag_metrics_port := None |}.

(** [-lease-lock-name=] *)
Definition flagsEmptyLockName : Flags :=
  {| flag_kubeconfig := None; flag_context := None; flag_region := None;
     flag_lease_id := None; flag_lease_lock_name := Some "";
     flag_lease_lock_namespace := None; flag_default_tags := None;
     flag_annotation_prefix := None; flag_watch_namespace := None;
     flag_status_port := None; flag_metrics_port := None |}.

(** [-region=nowhere] *)
Definition flagsBadRegion : Flags :=
  {| flag_kubeconfig := None; flag_context := None; flag_region := Some "nowhere";
     flag_lease_id := None; flag_lease_lock_name := None;
     flag_lease_lock_namespace := None; flag_default_tags := None;
     flag_annotation_prefix := None; flag_watch_namespace := None;
     flag_status_port := None; flag_metrics_port := None |}.

(** What [main world env1 noFlags] hands to [leaderelection.RunOrDie]. *)
Definition started : Started :=
  {| election := electionConfig "k8s-aws-ebs-tagger" "tagger" (uuid_New world);
     leaseID := uuid_New world;
     region := "us-east-1";
     defaultTags := [];
     annotationPrefix := "aws-ebs-tagger";
     watchNamespace := "ns1,ns2";
     statusPort := "8000";
     metricsPort := "8001" |}.

(** That process after it has acquired the lease, started its two tasks
    and missed a renewal. *)
Definition afterRenewFailure : Election.State :=
  {| Election.rootCancelled := false;
     Election.leadCancelled := false;
     Election.phase := Election.RenewEnded;
     Election.holder := Some (uuid_New world);
     Election.led := true;
     Election.startedLeading := true;
     Election.tasks :=
       [ {| Election.namespace := "ns1"; Election.state := Election.Watching |};
         {| Election.namespace := "ns2"; Election.state := Election.Watching |} ];
     Election.exited := None;
     Election.log := [] |}.

End Sample.

(** ** Definitions used in the statements and proofs *)

(** The number of bytes of [s] equal to [c]. *)
Fixpoint countByte (c : ascii) (s : string) : nat :=
  match s with
  | EmptyString => 0
  | String a s' => (if Ascii.eqb a c then 1 else 0) + countByte c s'
  end.

(** The maximal runs of bytes other than [c], in order. *)
Fixpoint pieces (c : ascii) (s : string) : list string :=
  match s with
  | EmptyString => [EmptyString]
  | String a s' =>
      if Ascii.eqb a c then EmptyString :: pieces c s'
      else match pieces c s' with
           | [] => [String a EmptyString]
           | p :: ps => String a p :: ps
           end
  end.

Definition comma : ascii := ","%char.

(** Modelled from the spec: the provider's syntactic limits on a tag
    ("max length"), as a bound on the length of the key and of the value.
    The function of the package that checks annotation-derived tags is
    not in [main.go]. *)
Definition withinLimits (maxKey maxValue : nat) (kv : string * string) : bool :=
  Nat.leb (String.length (fst kv)) maxKey && Nat.leb (String.length (snd kv)) maxValue.

(** The three durations of an election configuration. *)
Definition timing (c : LeaderElectionConfig) : Z * Z * Z :=
  (LeaseDuration c, RenewDeadline c, RetryPeriod c).

Module Termination.
Import Election.

Definition phaseRank (p : Phase) : nat :=
  match p with
  | Acquiring => 5 | Leading => 4 | RenewEnded => 3 | Released => 2 | Stopping => 1
  end.

Definition watching (ts : list Task) : nat :=
  List.length (filter isWatching ts).

(** A bound on the number of steps the process can still take. *)
Definition stepsLeft (cfg : Started) (s : State) : nat :=
  phaseRank (phase s)
  + (if rootCancelled s then 0 else 1)
  + watching (tasks s)
  + (if startedLeading s then 0 else S (List.length (run (watchNamespace cfg))))
  + (match exited s with None => 1 | Some _ => 0 end).

(** Every run from [s] is finite and ends in [os.Exit(0)]. *)
Inductive exitsCleanly (cfg : Started) : State -> Prop :=
| exits_now s : exited s = Some 0%Z -> exitsCleanly cfg s
| exits_later s :
    (exists s', step cfg s s') ->
    (forall s', step cfg s s' -> exitsCleanly cfg s') ->
    exitsCleanly cfg s.

Definition isError (e : LogEntry) : bool :=
  match level e with
  | ErrorLevel | FatalLevel => true
  | DebugLevel | InfoLevel => false
  end.

End Termination.

(** ** [init]: the logger set up from the environment *)

Module GoStrconv.

(** [strconv.NumError]: the function, the input and the kind of error. *)
Record NumError := { Func : string; Num : string; Err : string }.

(** The method [Error()] of a [NumError]; [Quote] is [strconv.Quote]. *)
Definition Error (Quote : string -> string) (e : NumError) : string :=
  "strconv." ++ Func e ++ ": parsing " ++ Quote (Num e) ++ ": " ++ Err e.

(** [strconv.ParseBool(str)]. *)
Definition ParseBool (str : string) : bool * option NumError :=
  if existsb (String.eqb str) ["1"; "t"; "T"; "TRUE"; "true"; "True"] then (true, None)
  else if existsb (String.eqb str) ["0"; "f"; "F"; "FALSE"; "false"; "False"] then (false, None)
  else (false, Some {| Func := "ParseBool"; Num := str; Err := "invalid syntax" |}).

End GoStrconv.

Module GoLower.

Definition isUpperByte (a : ascii) : bool :=
  let n := Ascii.nat_of_ascii a in Nat.leb 65 n && Nat.leb n 90.

(** [c >= utf8.RuneSelf] *)
Definition isRuneSelf (a : ascii) : bool := Nat.leb 128 (Ascii.nat_of_ascii a).

(** The scan at the head of [strings.ToLower]: whether all bytes are
    below [utf8.RuneSelf], and whether one of those before the first that
    is not is an upper-case letter. *)
Fixpoint scan (s : string) (hasUpper : bool) : bool * bool :=
  match s with
  | EmptyString => (true, hasUpper)
  | String c s' =>
      if isRuneSelf c then (false, hasUpper)
      else scan s' (hasUpper || isUpperByte c)
  end.

(** [c += 'a' - 'A'] on the upper-case letters. *)
Definition lowerByte (c : ascii) : ascii :=
  if isUpperByte c then Ascii.ascii_of_nat (Ascii.nat_of_ascii c + 32) else c.

Fixpoint lowerBytes (s : string) : string :=
  match s with
  | EmptyString => EmptyString
  | String c s' => String (lowerByte c) (lowerBytes s')
  end.

(** [strings.ToLower(s)]; [mapUnicode] is [Map(unicode.ToLower, s)], the
    path taken by a string with a byte of 128 or more. *)
Definition ToLower (mapUnicode : string -> string) (s : string) : string :=
  let '(isASCII, hasUpper) := scan s false in
  if isASCII then
    if negb hasUpper then s else lowerBytes s
  else mapUnicode s.

End GoLower.

(** logrus: the formatter and the level of the standard logger, which
    starts with the text formatter at info level. *)
Inductive Formatter := TextFormatter | JSONFormatter.

Record Logger := { formatter : Formatter; loggerLevel : LogLevel }.

Definition standardLogger : Logger :=
  {| formatter := TextFormatter; loggerLevel := InfoLevel |}.

(** [main.go], [init], lines 71-91, on the values of [LOG_FORMAT] and
    [DEBUG] read when the package variables are initialized.  The result
    is the logger [main] runs with, or [log.Fatalln].  [Quote] is
    [strconv.Quote], used in the text of the parse error. *)
Definition init (mapUnicode Quote : string -> string) (logFormatEnv debugEnv : string)
  : Check Logger :=
  let lg :=
    if String.eqb logFormatEnv "" || String.eqb (GoLower.ToLower mapUnicode logFormatEnv) "json"
    then {| formatter := JSONFormatter; loggerLevel := loggerLevel standardLogger |}
    else standardLogger in
  let parsed : Check bool :=
    if negb (Nat.eqb (String.length debugEnv) 0) then
      let '(debug, err) := GoStrconv.ParseBool debugEnv in
      match err with
      | Some e =>
          inl (Fatal ("Failed to parse DEBUG Environment variable: "
                      ++ GoStrconv.Error Quote e))
      | None => inr debug
      end
    else inr false in
  match parsed with
  | inl o => inl o
  | inr debug =>
      inr (if debug then {| formatter := formatter lg; loggerLevel := DebugLevel |}
           else lg)
  end.

(** ** The surroundings of [main], one function replaced *)

Definition withDecoder (x : Externals) (d : string -> TagMap * option string) : Externals :=
  {| uuid_New := uuid_New x; getCurrentNamespace := getCurrentNamespace x;
     getMetadataRegion := getMetadataRegion x; regexpAWSRegion := regexpAWSRegion x;
     regexp_Match := regexp_Match x; json_Unmarshal := d;
     createAWSSession := createAWSSession x; buildClient := buildClient x |}.

Definition withMetadataRegion (x : Externals) (m : string * option string) : Externals :=
  {| uuid_New := uuid_New x; getCurrentNamespace := getCurrentNamespace x;
     getMetadataRegion := m; regexpAWSRegion := regexpAWSRegion x;
     regexp_Match := regexp_Match x; json_Unmarshal := json_Unmarshal x;
     createAWSSession := createAWSSession x; buildClient := buildClient x |}.

Definition withCurrentNamespace (x : Externals) (n : string) : Externals :=
  {| uuid_New := uuid_New x; getCurrentNamespace := n;
     getMetadataRegion := getMetadataRegion x; regexpAWSRegion := regexpAWSRegion x;
     regexp_Match := regexp_Match x; json_Unmarshal := json_Unmarshal x;
     createAWSSession := createAWSSession x; buildClient := buildClient x |}.

(** The flags [-region], [-lease-lock-namespace] and [-watch-namespace]
    replaced. *)
Definition withFlags (fl : Flags) (reg ns watch : option string) : Flags :=
  {| flag_kubeconfig := flag_kubeconfig fl; flag_context := flag_context fl;
     flag_region := reg; flag_lease_id := flag_lease_id fl;
     flag_lease_lock_name := flag_lease_lock_name fl;
     flag_lease_lock_namespace := ns; flag_default_tags := flag_default_tags fl;
     flag_annotation_prefix := flag_annotation_prefix fl;
     flag_watch_namespace := watch;
     flag_status_port := flag_status_port fl; flag_metrics_port := flag_metrics_port fl |}.

(** ** [strings.Split] on a one-byte separator *)

Section SplitByte.

Import GoStrings.

Variable c : ascii.

Let sep : string := String c EmptyString.

Lemma Index_byte_cons a s :
  Index (String a s) sep =
  if Ascii.eqb a c then Some 0 else option_map S (Index s sep).
Proof.
  unfold sep. cbn [Index HasPrefix].
  replace (HasPrefix s EmptyString) with true by (destruct s; reflexivity).
  rewrite andb_true_r. reflexivity.
Qed.

Lemma Index_byte_nil : Index EmptyString sep = None.
Proof. reflexivity. Qed.

(** What the first occurrence found by [Index] says about [pieces] and
    [countByte]. *)
Lemma Index_byte_spec s :
  match Index s sep with
  | None => pieces c s = [s] /\ countByte c s = 0
  | Some m =>
      pieces c s = take m s :: pieces c (skip (m + 1) s)
      /\ countByte c s = S (countByte c (skip (m + 1) s))
  end.
Proof.
  induction s as [|a s IH].
  - rewrite Index_byte_nil. split; reflexivity.
  - rewrite Index_byte_cons. simpl pieces. simpl countByte.
    destruct (Ascii.eqb a c) eqn:E.
    + simpl. split; reflexivity.
    + destruct (Index s sep) as [m|]; simpl option_map; cbv iota.
      * destruct IH as [IH1 IH2]. rewrite IH1, IH2. simpl. split; reflexivity.
      * destruct IH as [IH1 IH2]. rewrite IH1, IH2. split; reflexivity.
Qed.

Lemma genSplit_loop_pieces fuel :
  forall s, countByte c s <= fuel -> genSplit_loop fuel s sep = pieces c s.
Proof.
  induction fuel as [|f IH]; intros s Hle.
  - pose proof (Index_byte_spec s) as H.
    destruct (Index s sep); [destruct H as [_ H]; lia|].
    simpl. symmetry. apply H.
  - simpl genSplit_loop. pose proof (Index_byte_spec s) as H.
    destruct (Index s sep) as [m|].
    + destruct H as [H1 H2]. change (String.length sep) with 1.
      rewrite IH by lia. symmetry. exact H1.
    + symmetry. apply H.
Qed.

Lemma Count_loop_countByte fuel :
  forall s, countByte c s <= fuel -> Count_loop fuel s sep = countByte c s.
Proof.
  induction fuel as [|f IH]; intros s Hle.
  - simpl. lia.
  - simpl Count_loop. pose proof (Index_byte_spec s) as H.
    destruct (Index s sep) as [m|].
    + destruct H as [_ H2]. change (String.length sep) with 1.
      rewrite IH by lia. lia.
    + destruct H as [_ H2]. lia.
Qed.

Lemma countByte_le_length s : countByte c s <= String.length s.
Proof.
  induction s as [|a s IH]; simpl; [lia|].
  destruct (Ascii.eqb a c); lia.
Qed.

Lemma Count_byte s : Count s sep = countByte c s.
Proof. apply Count_loop_countByte, countByte_le_length. Qed.

Lemma Split_byte s : Split s sep = pieces c s.
Proof.
  unfold Split. rewrite Count_byte.
  pose proof (countByte_le_length s) as Hle.
  destruct (Nat.ltb (String.length s + 1) (countByte c s + 1)) eqn:E.
  - apply Nat.ltb_lt in E. lia.
  - apply genSplit_loop_pieces. lia.
Qed.

Lemma pieces_length s : List.length (pieces c s) = S (countByte c s).
Proof.
  induction s as [|a s IH]; simpl; [reflexivity|].
  destruct (Ascii.eqb a c); simpl.
  - rewrite IH. reflexivity.
  - destruct (pieces c s); simpl in *; lia.
Qed.

Lemma pieces_Join s : Join (pieces c s) sep = s.
Proof.
  induction s as [|a s IH]; simpl pieces; [reflexivity|].
  destruct (Ascii.eqb a c) eqn:E.
  - apply Ascii.eqb_eq in E. subst a.
    pose proof (pieces_length s) as HL.
    destruct (pieces c s) as [|p ps]; [discriminate|].
    change (Join (EmptyString :: p :: ps) sep)
      with (String c (Join (p :: ps) sep)).
    rewrite IH. reflexivity.
  - pose proof (pieces_length s) as HL.
    destruct (pieces c s) as [|p ps]; [discriminate|].
    destruct ps as [|q qs].
    + simpl in *. rewrite IH. reflexivity.
    + change (Join (String a p :: q :: qs) sep)
        with (String a (Join (p :: q :: qs) sep)).
      rewrite IH. reflexivity.
Qed.

Lemma Contains_byte s : Contains s sep = negb (Nat.eqb (countByte c s) 0).
Proof.
  unfold Contains. pose proof (Index_byte_spec s) as H.
  destruct (Index s sep); destruct H as [_ H]; rewrite H; reflexivity.
Qed.

Lemma pieces_no_sep s : Forall (fun p => Contains p sep = false) (pieces c s).
Proof.
  induction s as [|a s IH]; simpl pieces.
  - constructor; [reflexivity|constructor].
  - destruct (Ascii.eqb a c) eqn:E.
    + constructor; [reflexivity|exact IH].
    + destruct (pieces c s) as [|p ps].
      * constructor; [|constructor].
        rewrite Contains_byte. simpl. rewrite E. reflexivity.
      * inversion IH as [|? ? Hp Hps]; subst. constructor; [|exact Hps].
        rewrite Contains_byte in *. simpl. rewrite E. exact Hp.
Qed.

End SplitByte.

(** ** The dispatchers started by [run] *)

Lemma namespaces_pieces (w : string) :
  w <> "" -> namespaces w = pieces comma w.
Proof.
  intros Hw. unfold namespaces.
  destruct (String.eqb w "") eqn:E.
  - apply String.eqb_eq in E. contradiction.
  - apply (Split_byte comma).
Qed.

Lemma run_namespaces (w : string) : map task_namespace (run w) = namespaces w.
Proof.
  unfold run. rewrite map_map. simpl. apply map_id.
Qed.

Lemma namespaces_nonempty (w : string) : namespaces w <> [].
Proof.
  unfold namespaces. destruct (String.eqb w "") eqn:E; [discriminate|].
  rewrite (Split_byte comma). intros H.
  pose proof (pieces_length comma w) as HL. rewrite H in HL. discriminate.
Qed.

(** C3.  With an empty watch-namespace setting [run] starts exactly one
    task, for the namespace [""] (all namespaces).  With a non-empty one
    the tasks started are, in order, one per piece of
    [strings.Split(watchNamespace, ",")]: there is one more task than
    there are commas, no task's namespace contains a comma, and joining
    the namespaces with commas gives the setting back. *)
Theorem run_one_task_per_namespace (w : string) :
  (w = "" -> run w = [Go_runWatchNamespaceTask ""])
  /\ (w <> "" ->
      run w = map Go_runWatchNamespaceTask (GoStrings.Split w ",")
      /\ List.length (run w) = S (GoStrings.Count w ",")
      /\ GoStrings.Join (map task_namespace (run w)) "," = w
      /\ Forall (fun g => GoStrings.Contains (task_namespace g) "," = false) (run w)).
Proof.
  split.
  - intros ->. reflexivity.
  - intros Hw.
    assert (Hs : GoStrings.Split w "," = pieces comma w) by apply (Split_byte comma).
    assert (Hr : run w = map Go_runWatchNamespaceTask (pieces comma w)).
    { unfold run. rewrite (namespaces_pieces w Hw). reflexivity. }
    repeat split.
    + rewrite Hs. exact Hr.
    + rewrite Hr, length_map, (pieces_length comma).
      rewrite <- (Count_byte comma). reflexivity.
    + rewrite run_namespaces, (namespaces_pieces w Hw).
      apply (pieces_Join comma).
    + rewrite Hr. apply Forall_map. simpl. apply (pieces_no_sep comma).
Qed.

Lemma run_one_task_per_namespace_witness :
  run "" = [Go_runWatchNamespaceTask ""]
  /\ run "ns1,ns2" = [Go_runWatchNamespaceTask "ns1"; Go_runWatchNamespaceTask "ns2"]
  /\ List.length (run "a,,b,") = 4.
Proof.
  split; [|split].
  - apply (proj1 (run_one_task_per_namespace "")). reflexivity.
  - destruct (proj2 (run_one_task_per_namespace "ns1,ns2")) as [H _].
    + discriminate.
    + rewrite H. reflexivity.
  - destruct (proj2 (run_one_task_per_namespace "a,,b,")) as [_ [H _]].
    + discriminate.
    + rewrite H. reflexivity.
Defined.

(** ** The health endpoint *)

(** C8.  Whatever the request, [statusHandler] answers 200 when the
    method is [GET] and 501 (not implemented) otherwise, with the bodies
    [OK] and [method is not implemented] when the write goes through; the
    answer is determined by the request's method alone, and the handler
    reads neither the election state nor any other variable of the
    process. *)
Theorem statusHandler_by_method (writeFails : bool) (r : Http.Request) :
  Http.status (fst (statusHandler writeFails r)) =
    Some (if String.eqb (Http.Method r) "GET" then Http.StatusOK
          else Http.StatusNotImplemented)
  /\ (writeFails = false ->
      Http.body (fst (statusHandler writeFails r)) =
        if String.eqb (Http.Method r) "GET" then "OK"
        else "method is not implemented")
  /\ (forall r' : Http.Request,
      Http.Method r' = Http.Method r ->
      statusHandler writeFails r' = statusHandler writeFails r).
Proof.
  unfold statusHandler.
  split; [|split].
  - destruct (String.eqb (Http.Method r) "GET"), writeFails; reflexivity.
  - intros ->. destruct (String.eqb (Http.Method r) "GET"); reflexivity.
  - intros r' ->. reflexivity.
Qed.

Lemma statusHandler_by_method_witness :
  Http.status (fst (statusHandler false {| Http.Method := "GET"; Http.URLPath := "/healthz" |}))
    = Some 200%Z
  /\ Http.body (fst (statusHandler false {| Http.Method := "POST"; Http.URLPath := "/healthz" |}))
    = "method is not implemented"
  /\ statusHandler true {| Http.Method := "get"; Http.URLPath := "/" |}
     = statusHandler true {| Http.Method := "get"; Http.URLPath := "/healthz" |}.
Proof.
  split; [|split].
  - apply (proj1 (statusHandler_by_method false
             {| Http.Method := "GET"; Http.URLPath := "/healthz" |})).
  - apply (proj1 (proj2 (statusHandler_by_method false
             {| Http.Method := "POST"; Http.URLPath := "/healthz" |}))).
    reflexivity.
  - apply (proj2 (proj2 (statusHandler_by_method true
             {| Http.Method := "get"; Http.URLPath := "/healthz" |}))).
    reflexivity.
Defined.


(** ** Start-up checks of [main] *)

Lemma checkLeaseLockName_inr (name : string) (u : unit) :
  checkLeaseLockName name = inr u -> name <> "".
Proof.
  unfold checkLeaseLockName, fatalIf.
  destruct (String.eqb name "") eqn:E; [discriminate|].
  intros _. apply String.eqb_neq. exact E.
Qed.

Lemma resolveLeaseLockNamespace_inr (x : Externals) (ns n : string) :
  resolveLeaseLockNamespace x ns = inr n ->
  n = (if String.eqb ns "" then getCurrentNamespace x else ns) /\ n <> "".
Proof.
  unfold resolveLeaseLockNamespace.
  destruct (String.eqb ns "") eqn:E1.
  - destruct (String.eqb (getCurrentNamespace x) "") eqn:E2; [discriminate|].
    intros [= <-]. split; [reflexivity|]. apply String.eqb_neq. exact E2.
  - intros [= <-]. split; [reflexivity|]. apply String.eqb_neq. exact E1.
Qed.

Lemma loadDefaultTags_inr (x : Externals) (tags : string) (m : TagMap) :
  loadDefaultTags x tags = inr m ->
  m = (if String.eqb tags "" then [] else fst (json_Unmarshal x tags))
  /\ (tags <> "" -> snd (json_Unmarshal x tags) = None).
Proof.
  unfold loadDefaultTags.
  destruct (String.eqb tags "") eqn:E; simpl negb; cbv iota.
  - intros [= <-]. split; [reflexivity|].
    apply String.eqb_eq in E. intros C. contradiction.
  - destruct (json_Unmarshal x tags) as [m' [e|]]; [discriminate|].
    intros [= <-]. split; reflexivity.
Qed.

Lemma resolveRegion_inr (x : Externals) (reg r : string) :
  resolveRegion x reg = inr r ->
  r = (if Nat.eqb (String.length reg) 0 then fst (getMetadataRegion x) else reg)
  /\ regexp_Match x (regexpAWSRegion x) r = (true, None).
Proof.
  unfold resolveRegion.
  destruct (regexp_Match x (regexpAWSRegion x) _) as [ok [e|]] eqn:E; [discriminate|].
  destruct ok; simpl negb; cbv iota; [|discriminate].
  intros [= <-]. split; [reflexivity|exact E].
Qed.

(** A check that fails ends the process with status 1. *)
Lemma checks_inl (x : Externals) (o : Outcome) :
  (exists name, checkLeaseLockName name = inl o)
  \/ (exists ns, resolveLeaseLockNamespace x ns = inl o)
  \/ (exists tags, loadDefaultTags x tags = inl o)
  \/ (exists reg, resolveRegion x reg = inl o)
  \/ (exists reg, checkAWSSession x reg = inl o)
  \/ (exists k c, checkClient x k c = inl o) ->
  exitStatus o = Some 1%Z.
Proof.
  intros [[a H]|[[a H]|[[a H]|[[a H]|[[a H]|[a [b H]]]]]]]; revert H.
  - unfold checkLeaseLockName, fatalIf.
    destruct (String.eqb a ""); [|discriminate]. intros [= <-]. reflexivity.
  - unfold resolveLeaseLockNamespace.
    destruct (String.eqb a ""); [|discriminate].
    destruct (String.eqb (getCurrentNamespace x) ""); [|discriminate].
    intros [= <-]. reflexivity.
  - unfold loadDefaultTags.
    destruct (negb (String.eqb a "")); [|discriminate].
    destruct (json_Unmarshal x a) as [m [e|]]; [|discriminate].
    intros [= <-]. reflexivity.
  - unfold resolveRegion.
    destruct (regexp_Match x (regexpAWSRegion x) _) as [ok [e|]].
    + intros [= <-]. reflexivity.
    + destruct (negb ok); [|discriminate]. intros [= <-]. reflexivity.
  - unfold checkAWSSession.
    destruct (negb (createAWSSession x a)); [|discriminate].
    intros [= <-]. reflexivity.
  - unfold checkClient.
    destruct (buildClient x a b); [|discriminate]. intros [= <-]. reflexivity.
Qed.

Ltac failed_check x E :=
  exfalso;
  match goal with
  | H : ?o = RunOrDie _ |- _ =>
      assert (Hx : exitStatus o = Some 1%Z)
        by (apply (checks_inl x); eauto 12);
      rewrite H in Hx; discriminate Hx
  end.

(** [main] reaches [leaderelection.RunOrDie] only with every check
    passed; the fields of the configuration are then as follows. *)
Lemma main_RunOrDie_inv (x : Externals) (env : Env) (fl : Flags) (st : Started) :
  main x env fl = RunOrDie st ->
  let name := StringVar (flag_lease_lock_name fl) "k8s-aws-ebs-tagger" in
  let ns := StringVar (flag_lease_lock_namespace fl) (NAMESPACE env) in
  let tags := StringVar (flag_default_tags fl) "" in
  let reg := StringVar (flag_region fl) (AWS_REGION env) in
  name <> ""
  /\ Namespace (Lock (election st)) = (if String.eqb ns "" then getCurrentNamespace x else ns)
  /\ Namespace (Lock (election st)) <> ""
  /\ defaultTags st = (if String.eqb tags "" then [] else fst (json_Unmarshal x tags))
  /\ (tags <> "" -> snd (json_Unmarshal x tags) = None)
  /\ region st = (if Nat.eqb (String.length reg) 0 then fst (getMetadataRegion x) else reg)
  /\ regexp_Match x (regexpAWSRegion x) (region st) = (true, None)
  /\ election st = electionConfig name (Namespace (Lock (election st)))
                     (StringVar (flag_lease_id fl) (uuid_New x))
  /\ leaseID st = StringVar (flag_lease_id fl) (uuid_New x)
  /\ watchNamespace st = StringVar (flag_watch_namespace fl) (WATCH_NAMESPACE env).
Proof.
  intros H. cbv zeta. unfold main, bind in H.
  destruct (checkLeaseLockName _) as [?|u] eqn:E1; [failed_check x E1|].
  destruct (resolveLeaseLockNamespace x _) as [?|n] eqn:E2; [failed_check x E2|].
  destruct (loadDefaultTags x _) as [?|m] eqn:E3; [failed_check x E3|].
  destruct (resolveRegion x _) as [?|r] eqn:E4; [failed_check x E4|].
  destruct (checkAWSSession x r) as [?|u1] eqn:E5; [failed_check x E5|].
  destruct (checkClient x _ _) as [?|u2] eqn:E6; [failed_check x E6|].
  injection H as <-. cbn [election Lock Namespace defaultTags region leaseID watchNamespace electionConfig].
  apply checkLeaseLockName_inr in E1.
  apply resolveLeaseLockNamespace_inr in E2. destruct E2 as [E2 E2'].
  apply loadDefaultTags_inr in E3. destruct E3 as [E3 E3'].
  apply resolveRegion_inr in E4. destruct E4 as [E4 E4'].
  repeat split; try assumption; try reflexivity.
Qed.

(** The checks that come before the AWS session end in [log.Fatalln]. *)
Lemma early_checks_Fatal (x : Externals) (o : Outcome) :
  (exists name, checkLeaseLockName name = inl o)
  \/ (exists ns, resolveLeaseLockNamespace x ns = inl o)
  \/ (exists tags, loadDefaultTags x tags = inl o)
  \/ (exists reg, resolveRegion x reg = inl o) ->
  exists msg, o = Fatal msg.
Proof.
  intros [[a H]|[[a H]|[[a H]|[a H]]]]; revert H.
  - unfold checkLeaseLockName, fatalIf.
    destruct (String.eqb a ""); [|discriminate]. intros [= <-]. eauto.
  - unfold resolveLeaseLockNamespace.
    destruct (String.eqb a ""); [|discriminate].
    destruct (String.eqb (getCurrentNamespace x) ""); [|discriminate].
    intros [= <-]. eauto.
  - unfold loadDefaultTags.
    destruct (negb (String.eqb a "")); [|discriminate].
    destruct (json_Unmarshal x a) as [m [e|]]; [|discriminate].
    intros [= <-]. eauto.
  - unfold resolveRegion.
    destruct (regexp_Match x (regexpAWSRegion x) _) as [ok [e|]].
    + intros [= <-]. eauto.
    + destruct (negb ok); [|discriminate]. intros [= <-]. eauto.
Qed.


(** ** The lease lock's name and namespace *)

(** C10.  The lock name is [k8s-aws-ebs-tagger] unless the flag
    [lease-lock-name] is given; given empty, [main] ends in [log.Fatalln]
    with the message about the missing name; and whenever [main] reaches
    [leaderelection.RunOrDie] the lock's name is not empty. *)
Theorem lease_lock_name_never_empty (x : Externals) (env : Env) (fl : Flags) :
  StringVar None "k8s-aws-ebs-tagger" <> ""
  /\ (flag_lease_lock_name fl = Some "" ->
      main x env fl =
        Fatal "unable to get lease lock resource name (missing lease-lock-name flag).")
  /\ (forall st, main x env fl = RunOrDie st ->
      Name (Lock (election st)) = StringVar (flag_lease_lock_name fl) "k8s-aws-ebs-tagger"
      /\ Name (Lock (election st)) <> "").
Proof.
  split; [discriminate|]. split.
  - intros H. unfold main, bind, checkLeaseLockName, fatalIf. rewrite H. reflexivity.
  - intros st H. apply main_RunOrDie_inv in H. cbv zeta in H.
    destruct H as (Hn & _ & _ & _ & _ & _ & _ & He & _).
    rewrite He. simpl. split; [reflexivity|exact Hn].
Qed.

Lemma lease_lock_name_never_empty_witness :
  main Sample.world Sample.env1 Sample.flagsEmptyLockName =
    Fatal "unable to get lease lock resource name (missing lease-lock-name flag)."
  /\ exists st, main Sample.world Sample.env1 noFlags = RunOrDie st
       /\ Name (Lock (election st)) = "k8s-aws-ebs-tagger".
Proof.
  split.
  - apply (proj1 (proj2 (lease_lock_name_never_empty
             Sample.world Sample.env1 Sample.flagsEmptyLockName))).
    reflexivity.
  - eexists. split; [reflexivity|].
    apply (proj2 (proj2 (lease_lock_name_never_empty Sample.world Sample.env1 noFlags))).
    reflexivity.
Defined.

(** C7.  With an empty [lease-lock-namespace] (flag not given and
    [NAMESPACE] unset, or given empty) the lock's namespace is
    [getCurrentNamespace()]; if that is empty as well [main] ends in
    [log.Fatalln], with exit status 1, before [RunOrDie]; a non-empty
    setting is used as it is. *)
Theorem lease_lock_namespace_fallback (x : Externals) (env : Env) (fl : Flags) :
  let ns := StringVar (flag_lease_lock_namespace fl) (NAMESPACE env) in
  (forall st, main x env fl = RunOrDie st ->
     Namespace (Lock (election st)) = (if String.eqb ns "" then getCurrentNamespace x else ns)
     /\ Namespace (Lock (election st)) <> "")
  /\ (ns = "" -> getCurrentNamespace x = "" ->
      (exists msg, main x env fl = Fatal msg)
      /\ exitStatus (main x env fl) = Some 1%Z).
Proof.
  cbv zeta. split.
  - intros st H. apply main_RunOrDie_inv in H. cbv zeta in H.
    destruct H as (_ & H1 & H2 & _). split; assumption.
  - intros Hns Hcur.
    assert (Hf : exists msg, main x env fl = Fatal msg).
    { unfold main, bind.
      destruct (checkLeaseLockName _) as [o|u] eqn:E1;
        [apply (early_checks_Fatal x); eauto|].
      rewrite Hns. unfold resolveLeaseLockNamespace. rewrite Hcur. simpl. eauto. }
    split; [exact Hf|]. destruct Hf as [msg ->]. reflexivity.
Qed.

Lemma lease_lock_namespace_fallback_witness :
  (exists st, main Sample.world Sample.noEnv noFlags = RunOrDie st
     /\ Namespace (Lock (election st)) = "kube-system")
  /\ exitStatus (main Sample.offCloud Sample.noEnv noFlags) = Some 1%Z.
Proof.
  split.
  - eexists. split; [reflexivity|].
    apply (proj1 (lease_lock_namespace_fallback Sample.world Sample.noEnv noFlags)).
    reflexivity.
  - apply (proj2 (lease_lock_namespace_fallback Sample.offCloud Sample.noEnv noFlags));
      reflexivity.
Defined.

(** ** The region *)

(** C5.  An empty [region] (flag not given and [AWS_REGION] unset, or
    given empty) is replaced by the region of [getMetadataRegion()]; the
    resulting name is matched against [regexpAWSRegion]; [main] reaches
    [leaderelection.RunOrDie], from which alone dispatchers are started,
    only with a name that matches, and ends in [log.Fatalln] with exit
    status 1 whenever the match fails or errs.  A failed metadata lookup
    leaves the empty name, which is fatal when the pattern rejects it. *)
Theorem region_resolved_then_validated (x : Externals) (env : Env) (fl : Flags) :
  let reg := StringVar (flag_region fl) (AWS_REGION env) in
  let resolved := if Nat.eqb (String.length reg) 0 then fst (getMetadataRegion x) else reg in
  (forall st, main x env fl = RunOrDie st ->
     region st = resolved
     /\ regexp_Match x (regexpAWSRegion x) resolved = (true, None))
  /\ (regexp_Match x (regexpAWSRegion x) resolved <> (true, None) ->
      (exists msg, main x env fl = Fatal msg)
      /\ exitStatus (main x env fl) = Some 1%Z)
  /\ (reg = "" -> getMetadataRegion x = ("", snd (getMetadataRegion x)) ->
      fst (regexp_Match x (regexpAWSRegion x) "") = false ->
      exists msg, main x env fl = Fatal msg).
Proof.
  cbv zeta.
  set (reg := StringVar (flag_region fl) (AWS_REGION env)).
  set (resolved := if Nat.eqb (String.length reg) 0 then fst (getMetadataRegion x) else reg).
  assert (Hbad : regexp_Match x (regexpAWSRegion x) resolved <> (true, None) ->
                 exists msg, main x env fl = Fatal msg).
  { intros Hm. unfold main, bind.
    destruct (checkLeaseLockName _) as [o|u] eqn:E1;
      [apply (early_checks_Fatal x); eauto|].
    destruct (resolveLeaseLockNamespace x _) as [o|n] eqn:E2;
      [apply (early_checks_Fatal x); eauto|].
    destruct (loadDefaultTags x _) as [o|m] eqn:E3;
      [apply (early_checks_Fatal x); eauto 6|].
    fold reg.
    destruct (resolveRegion x reg) as [o|r] eqn:E4;
      [apply (early_checks_Fatal x); eauto 6|].
    apply resolveRegion_inr in E4. destruct E4 as [-> E4].
    fold resolved in E4. contradiction. }
  split; [|split].
  - intros st H. apply main_RunOrDie_inv in H. cbv zeta in H.
    destruct H as (_ & _ & _ & _ & _ & H1 & H2 & _).
    fold reg in H1. fold resolved in H1. rewrite H1 in H2. split; assumption.
  - intros Hm. destruct (Hbad Hm) as [msg Hf].
    split; [eauto|]. rewrite Hf. reflexivity.
  - intros Hreg Hmeta Hrej. apply Hbad.
    unfold resolved. rewrite Hreg. simpl. rewrite Hmeta. simpl.
    intros C. rewrite C in Hrej. discriminate.
Qed.

Lemma region_resolved_then_validated_witness :
  (exists st, main Sample.world Sample.noEnv noFlags = RunOrDie st
     /\ region st = "eu-west-1")
  /\ exitStatus (main Sample.world Sample.env1 Sample.flagsBadRegion) = Some 1%Z
  /\ exists msg,
       main Sample.offCloud Sample.env1
         {| flag_kubeconfig := None; flag_context := None; flag_region := Some "";
            flag_lease_id := None; flag_lease_lock_name := None;
            flag_lease_lock_namespace := None; flag_default_tags := None;
            flag_annotation_prefix := None; flag_watch_namespace := None;
            flag_status_port := None; flag_metrics_port := None |} = Fatal msg.
Proof.
  split; [|split].
  - eexists. split; [reflexivity|].
    apply (proj1 (region_resolved_then_validated Sample.world Sample.noEnv noFlags)).
    reflexivity.
  - apply (proj1 (proj2 (region_resolved_then_validated
             Sample.world Sample.env1 Sample.flagsBadRegion))).
    discriminate.
  - apply (proj2 (proj2 (region_resolved_then_validated Sample.offCloud Sample.env1 _)));
      reflexivity.
Defined.

(** ** The default tags *)

(** C6, as stated, fails: a [default-tags] document whose only key is 300
    bytes long, beyond the provider's limits of 128 bytes for a key and
    256 for a value, passes start-up, and the key is in [defaultTags] as
    it was given. *)
Lemma default_tags_not_validated :
  ~ (forall (x : Externals) (env : Env) (fl : Flags) (st : Started),
       main x env fl = RunOrDie st ->
       forallb (withinLimits 128 256) (defaultTags st) = true).
Proof.
  intros H.
  specialize (H Sample.world Sample.env1 Sample.flagsLongKey _ eq_refl).
  vm_compute in H. discriminate H.
Qed.

(** C6, amended.  A non-empty [default-tags] string is decoded by
    [json.Unmarshal] into the string-to-string map [defaultTags]; a
    decoding error ends [main] in [log.Fatalln] with exit status 1; when
    start-up goes on, [defaultTags] is the decoded map as it is, whatever
    its keys and values: nothing is validated or normalized at start-up. *)
Theorem default_tags_decoded_as_given (x : Externals) (env : Env) (fl : Flags) :
  let tags := StringVar (flag_default_tags fl) "" in
  tags <> "" ->
  (forall e, snd (json_Unmarshal x tags) = Some e ->
     (exists msg, main x env fl = Fatal msg)
     /\ exitStatus (main x env fl) = Some 1%Z)
  /\ (forall st, main x env fl = RunOrDie st ->
      snd (json_Unmarshal x tags) = None
      /\ defaultTags st = fst (json_Unmarshal x tags)).
Proof.
  cbv zeta. intros Hne. split.
  - intros e He.
    assert (Hf : exists msg, main x env fl = Fatal msg).
    { unfold main, bind.
      destruct (checkLeaseLockName _) as [o|u] eqn:E1;
        [apply (early_checks_Fatal x); eauto|].
      destruct (resolveLeaseLockNamespace x _) as [o|n] eqn:E2;
        [apply (early_checks_Fatal x); eauto|].
      destruct (loadDefaultTags x _) as [o|m] eqn:E3;
        [apply (early_checks_Fatal x); eauto 6|].
      apply loadDefaultTags_inr in E3. destruct E3 as [_ E3].
      rewrite (E3 Hne) in He. discriminate. }
    split; [exact Hf|]. destruct Hf as [msg ->]. reflexivity.
  - intros st H. apply main_RunOrDie_inv in H. cbv zeta in H.
    destruct H as (_ & _ & _ & H1 & H2 & _).
    split; [exact (H2 Hne)|].
    rewrite H1. destruct (String.eqb _ "") eqn:E; [|reflexivity].
    apply String.eqb_eq in E. contradiction.
Qed.

Lemma default_tags_decoded_as_given_witness :
  exitStatus (main Sample.world Sample.env1 Sample.flagsBadJSON) = Some 1%Z
  /\ exists st, main Sample.world Sample.env1 Sample.flagsLongKey = RunOrDie st
       /\ defaultTags st = [(Sample.longKey, "x")].
Proof.
  split.
  - apply (proj1 (default_tags_decoded_as_given
             Sample.world Sample.env1 Sample.flagsBadJSON ltac:(discriminate))
             "invalid character").
    reflexivity.
  - eexists. split; [reflexivity|].
    apply (proj2 (default_tags_decoded_as_given
             Sample.world Sample.env1 Sample.flagsLongKey ltac:(discriminate))).
    reflexivity.
Defined.

(** ** The election configuration *)

(** C4, as stated, fails: no two start-ups, whatever their flags,
    environment and surroundings, reach the election with different
    lease duration, renew deadline or retry period. *)
Lemma election_timing_not_configurable :
  ~ (exists (x x' : Externals) (env env' : Env) (fl fl' : Flags) (st st' : Started),
       main x env fl = RunOrDie st
       /\ main x' env' fl' = RunOrDie st'
       /\ timing (election st) <> timing (election st')).
Proof.
  intros (x & x' & env & env' & fl & fl' & st & st' & H & H' & Hd).
  apply main_RunOrDie_inv in H. apply main_RunOrDie_inv in H'. cbv zeta in H, H'.
  destruct H as (_ & _ & _ & _ & _ & _ & _ & He & _).
  destruct H' as (_ & _ & _ & _ & _ & _ & _ & He' & _).
  apply Hd. rewrite He, He'. reflexivity.
Qed.

(** C4, amended.  The lease duration, renew deadline and retry period
    passed to [leaderelection.RunOrDie] are the constants 60 s, 15 s and
    5 s written in [main], with [ReleaseOnCancel] set; no flag or
    environment variable changes them. *)
Theorem election_timing_fixed (x : Externals) (env : Env) (fl : Flags) (st : Started) :
  main x env fl = RunOrDie st ->
  LeaseDuration (election st) = (60 * Duration.Second)%Z
  /\ RenewDeadline (election st) = (15 * Duration.Second)%Z
  /\ RetryPeriod (election st) = (5 * Duration.Second)%Z
  /\ ReleaseOnCancel (election st) = true.
Proof.
  intros H. apply main_RunOrDie_inv in H. cbv zeta in H.
  destruct H as (_ & _ & _ & _ & _ & _ & _ & He & _).
  rewrite He. repeat split.
Qed.

Lemma election_timing_fixed_witness :
  exists st, main Sample.world Sample.env1 Sample.flagsLeaseID = RunOrDie st
    /\ LeaseDuration (election st) = 60000000000%Z
    /\ RenewDeadline (election st) = 15000000000%Z
    /\ RetryPeriod (election st) = 5000000000%Z
    /\ ReleaseOnCancel (election st) = true.
Proof.
  eexists. split; [reflexivity|].
  apply (election_timing_fixed Sample.world Sample.env1 Sample.flagsLeaseID).
  reflexivity.
Defined.

(** ** The process under the elector *)

Section ElectionFacts.

Import Election Termination.

Variable cfg : Started.

Lemma holder_is_identity s :
  reachable cfg s ->
  holder s = None \/ holder s = Some (Identity (Lock (election cfg))).
Proof.
  induction 1 as [|s s' _ IH Hstep]; [left; reflexivity|].
  inversion Hstep; subst; simpl; auto.
Qed.

Lemma exit_is_zero s s' :
  step cfg s s' -> exited s' = None \/ exited s' = Some 0%Z.
Proof.
  inversion 1; subst; simpl; auto.
Qed.

Lemma reachable_exit_zero s :
  reachable cfg s -> exited s = None \/ exited s = Some 0%Z.
Proof.
  induction 1 as [|s s' _ _ Hstep]; [left; reflexivity|].
  exact (exit_is_zero _ _ Hstep).
Qed.

Lemma log_without_errors s :
  reachable cfg s -> forallb (fun e => negb (isError e)) (log s) = true.
Proof.
  induction 1 as [|s s' _ IH Hstep]; [reflexivity|].
  inversion Hstep; subst; simpl; try assumption;
    rewrite forallb_app, IH; reflexivity.
Qed.

Lemma watching_stopTask ts :
  forall i t, nth_error ts i = Some t -> state t = Watching ->
  S (watching (stopTask i ts)) = watching ts.
Proof.
  unfold watching.
  induction ts as [|t0 ts IH]; intros [|i] t Hn Hw; simpl in Hn; try discriminate.
  - injection Hn as ->. simpl. unfold isWatching at 2. rewrite Hw. reflexivity.
  - simpl. destruct (isWatching t0); simpl; rewrite <- (IH i t Hn Hw); reflexivity.
Qed.

Lemma watching_spawn gs : watching (map spawn gs) = List.length gs.
Proof.
  unfold watching. induction gs as [|g gs IH]; simpl; [reflexivity|].
  rewrite IH. reflexivity.
Qed.

Lemma step_decreases s s' :
  step cfg s s' -> stepsLeft cfg s' < stepsLeft cfg s.
Proof.
  inversion 1; subst; unfold stepsLeft; simpl.
  all: try match goal with
           | Hn : nth_error _ _ = Some _, Hw : state _ = Watching |- _ =>
               pose proof (watching_stopTask _ _ _ Hn Hw)
           end.
  all: try rewrite watching_spawn.
  all: repeat match goal with
              | H : exited _ = _ |- _ => rewrite H; clear H
              | H : phase _ = _ |- _ => rewrite H; clear H
              | H : rootCancelled _ = _ |- _ => rewrite H; clear H
              | H : startedLeading _ = _ |- _ => rewrite H; clear H
              end.
  all: simpl;
    repeat match goal with
           | |- context [if ?b then _ else _] => destruct b
           end; simpl; lia.
Qed.

Lemma step_enabled s : exited s = None -> exists s', step cfg s s'.
Proof.
  intros He. destruct (phase s) eqn:Ep.
  - destruct (rootCancelled s) eqn:Er.
    + eexists. apply AcquireCancelled; assumption.
    + eexists. apply Acquire; assumption.
  - eexists. apply RenewFailed; assumption.
  - destruct (ReleaseOnCancel (election cfg)) eqn:Er.
    + eexists. apply Release; assumption.
    + eexists. apply KeepLease; assumption.
  - eexists. apply RunReturns; assumption.
  - eexists. apply StoppedLeading; assumption.
Qed.

Lemma exitsCleanly_bounded n :
  forall s, stepsLeft cfg s < n ->
  exited s = None \/ exited s = Some 0%Z ->
  exitsCleanly cfg s.
Proof.
  induction n as [|n IH]; intros s Hn He; [lia|].
  destruct He as [He|He]; [|apply exits_now; exact He].
  apply exits_later.
  - apply step_enabled. exact He.
  - intros s' Hstep. apply IH.
    + pose proof (step_decreases _ _ Hstep). lia.
    + exact (exit_is_zero _ _ Hstep).
Qed.

Lemma run_nonempty w : run w <> [].
Proof.
  unfold run. intros H. apply map_eq_nil in H.
  exact (namespaces_nonempty w H).
Qed.

Lemma spawned_running w : existsb isWatching (map spawn (run w)) = true.
Proof.
  pose proof (run_nonempty w) as H.
  destruct (run w) as [|g gs]; [contradiction|]. reflexivity.
Qed.

End ElectionFacts.

(** One more step of a run: from [R : reachable cfg s], by the
    constructor [C], to [R : reachable cfg s']. *)
Ltac advance R C :=
  match type of R with
  | Election.reachable ?cfg ?s =>
      let H := fresh "R" in
      eassert (H : Election.reachable cfg _);
      [ eapply (Election.reach_step cfg s);
        [ exact R | eapply C; try reflexivity; try assumption ]
      | clear R; rename H into R; simpl in R ]
  end.

Section Traces.

Import Election.

Variable cfg : Started.

Hypothesis release_on_cancel : ReleaseOnCancel (election cfg) = true.

(** The lease is acquired, [run] starts the tasks, a renewal misses its
    deadline, and [release] gives the lease up: the context of the tasks
    is not cancelled yet. *)
Lemma renew_failure_trace :
  exists s, reachable cfg s
    /\ exited s = None /\ ctxDone s = false
    /\ leaseReleased s = true
    /\ tasks s = map spawn (run (watchNamespace cfg)).
Proof.
  pose proof (reach_init cfg) as R.
  advance R (Acquire cfg).
  advance R (StartedLeading cfg).
  advance R (RenewFailed cfg).
  advance R (Release cfg).
  eexists. split; [exact R|]. simpl. repeat split.
Qed.

(** The lease is acquired, [run] starts the tasks, a signal makes the
    handler call [cancel()], [renew] sees the context done and [release]
    gives the lease up before any task has been scheduled. *)
Lemma shutdown_trace :
  exists s, reachable cfg s
    /\ exited s = None /\ rootCancelled s = true
    /\ leaseReleased s = true
    /\ tasks s = map spawn (run (watchNamespace cfg)).
Proof.
  pose proof (reach_init cfg) as R.
  advance R (Acquire cfg).
  advance R (StartedLeading cfg).
  advance R (Signal cfg).
  advance R (RenewCancelled cfg).
  advance R (Release cfg).
  eexists. split; [exact R|]. simpl. repeat split.
Qed.

End Traces.

(** ** Stopping the dispatchers and releasing the lease *)

(** C1 fails on the code.  For every start-up that reaches the election,
    the process reaches a state, still running, in which the lease has
    been released while every dispatcher task started by [run] is still
    blocked at [<-ctx.Done()]: after a missed renewal, with the tasks'
    context not even cancelled, and after a shutdown signal, with the
    context cancelled but no task having returned. *)
Theorem lease_released_while_dispatchers_run
    (x : Externals) (env : Env) (fl : Flags) (st : Started) :
  main x env fl = RunOrDie st ->
  (exists s, Election.reachable st s
     /\ Election.exited s = None
     /\ Election.ctxDone s = false
     /\ Election.leaseReleased s = true
     /\ Election.dispatcherRunning s = true)
  /\ (exists s, Election.reachable st s
     /\ Election.exited s = None
     /\ Election.rootCancelled s = true
     /\ Election.leaseReleased s = true
     /\ Election.dispatcherRunning s = true).
Proof.
  intros H. apply main_RunOrDie_inv in H. cbv zeta in H.
  destruct H as (_ & _ & _ & _ & _ & _ & _ & He & _).
  assert (Hr : ReleaseOnCancel (election st) = true) by (rewrite He; reflexivity).
  split.
  - destruct (renew_failure_trace st Hr) as (s & R & E & C & L & T).
    exists s. repeat split; try assumption.
    unfold Election.dispatcherRunning. rewrite T. apply spawned_running.
  - destruct (shutdown_trace st Hr) as (s & R & E & C & L & T).
    exists s. repeat split; try assumption.
    unfold Election.dispatcherRunning. rewrite T. apply spawned_running.
Qed.

Lemma lease_released_while_dispatchers_run_witness :
  exists st, main Sample.world Sample.noEnv noFlags = RunOrDie st
    /\ exists s, Election.reachable st s
         /\ Election.exited s = None
         /\ Election.ctxDone s = false
         /\ Election.leaseReleased s = true
         /\ Election.dispatcherRunning s = true.
Proof.
  eexists. split; [reflexivity|].
  apply (proj1 (lease_released_while_dispatchers_run
                  Sample.world Sample.noEnv noFlags _ eq_refl)).
Defined.

(** ** Losing leadership *)

(** C2.  From every state the process can reach in which leadership was
    held and is lost, every run is finite and ends in [os.Exit(0)]; if
    the process has exited its status is 0; nothing on the way is logged
    at error or fatal level; [OnStoppedLeading] itself logs one line at
    info level and exits with status 0. *)
Theorem leadership_loss_exits_zero (cfg : Started) (s : Election.State) :
  Election.reachable cfg s ->
  Election.lostLeadership s = true ->
  Termination.exitsCleanly cfg s
  /\ (forall c, Election.exited s = Some c -> c = 0%Z)
  /\ forallb (fun e => negb (Termination.isError e)) (Election.log s) = true
  /\ level (fst (OnStoppedLeading (leaseID cfg))) = InfoLevel
  /\ snd (OnStoppedLeading (leaseID cfg)) = 0%Z.
Proof.
  intros R _. pose proof (reachable_exit_zero cfg s R) as He.
  repeat split.
  - apply (exitsCleanly_bounded cfg (S (Termination.stepsLeft cfg s))); [lia|exact He].
  - intros c Hc. destruct He as [He|He]; rewrite He in Hc; [discriminate|].
    injection Hc as <-. reflexivity.
  - apply (log_without_errors cfg s R).
Qed.

Lemma leadership_loss_exits_zero_witness :
  main Sample.world Sample.env1 noFlags = RunOrDie Sample.started
  /\ Termination.exitsCleanly Sample.started Sample.afterRenewFailure
  /\ snd (OnStoppedLeading (leaseID Sample.started)) = 0%Z.
Proof.
  split; [reflexivity|].
  assert (R : Election.reachable Sample.started Sample.afterRenewFailure).
  { pose proof (Election.reach_init Sample.started) as R.
    advance R (Election.Acquire Sample.started).
    advance R (Election.StartedLeading Sample.started).
    advance R (Election.RenewFailed Sample.started).
    exact R. }
  destruct (leadership_loss_exits_zero Sample.started Sample.afterRenewFailure R eq_refl)
    as (H1 & _ & _ & _ & H2).
  split; assumption.
Defined.

(** ** The holder identity *)

(** C9, as stated, fails: started with [-lease-id=replica-a] the process
    takes the lease as [replica-a], not as the UUID drawn at start. *)
Lemma lease_identity_not_always_random :
  ~ (forall (x : Externals) (env : Env) (fl : Flags) (st : Started),
       main x env fl = RunOrDie st ->
       Identity (Lock (election st)) = uuid_New x).
Proof.
  intros H.
  specialize (H Sample.world Sample.env1 Sample.flagsLeaseID _ eq_refl).
  vm_compute in H. discriminate H.
Qed.

(** C9, amended.  The lock's holder identity is the value of the flag
    [lease-id], whose default is a UUID drawn once when the flags are
    declared; so it is that UUID when the flag is not given.  It is fixed
    when [main] builds the lock, and in every state the process reaches
    the holder it has written to the Lease is that identity or none. *)
Theorem lease_identity_fixed (x : Externals) (env : Env) (fl : Flags) (st : Started) :
  main x env fl = RunOrDie st ->
  Identity (Lock (election st)) = StringVar (flag_lease_id fl) (uuid_New x)
  /\ (flag_lease_id fl = None -> Identity (Lock (election st)) = uuid_New x)
  /\ leaseID st = Identity (Lock (election st))
  /\ (forall s, Election.reachable st s ->
      Election.holder s = None
      \/ Election.holder s = Some (Identity (Lock (election st)))).
Proof.
  intros H. apply main_RunOrDie_inv in H. cbv zeta in H.
  destruct H as (_ & _ & _ & _ & _ & _ & _ & He & Hl & _).
  assert (Hi : Identity (Lock (election st)) = StringVar (flag_lease_id fl) (uuid_New x))
    by (rewrite He; reflexivity).
  repeat split.
  - exact Hi.
  - intros Hn. rewrite Hi, Hn. reflexivity.
  - rewrite Hi. exact Hl.
  - intros s R. apply holder_is_identity. exact R.
Qed.

Lemma lease_identity_fixed_witness :
  (exists st, main Sample.world Sample.env1 noFlags = RunOrDie st
     /\ Identity (Lock (election st)) = "6ba7b810-9dad-41d1-80b4-00c04fd430c8")
  /\ (exists st, main Sample.world Sample.env1 Sample.flagsLeaseID = RunOrDie st
     /\ Identity (Lock (election st)) = "replica-a").
Proof.
  split.
  - eexists. split; [reflexivity|].
    apply (proj1 (proj2 (lease_identity_fixed Sample.world Sample.env1 noFlags _ eq_refl))).
    reflexivity.
  - eexists. split; [reflexivity|].
    apply (proj1 (lease_identity_fixed Sample.world Sample.env1 Sample.flagsLeaseID _ eq_refl)).
Defined.

(** ** The logger set up by [init] *)

Lemma existsb_eqb_In (s : string) (l : list string) :
  existsb (String.eqb s) l = true <-> In s l.
Proof.
  rewrite existsb_exists. split.
  - intros (y & Hy & E). apply String.eqb_eq in E. subst. exact Hy.
  - intros H. exists s. split; [exact H|apply String.eqb_refl].
Qed.

Lemma existsb_eqb_not_In (s : string) (l : list string) :
  ~ In s l -> existsb (String.eqb s) l = false.
Proof.
  intros H. destruct (existsb (String.eqb s) l) eqn:E; [|reflexivity].
  apply existsb_eqb_In in E. contradiction.
Qed.

(** [DEBUG] in [init].  An empty [DEBUG] is not parsed and leaves the
    level at info; one of [1 t T TRUE true True] sets the debug level; one
    of [0 f F FALSE false False] leaves info; any other value, such as
    [yes], ends the process in [log.Fatalln], whatever [LOG_FORMAT] is. *)
Theorem init_debug_level (mapUnicode Quote : string -> string) (lf d : string) :
  (d = "" ->
     exists lg, init mapUnicode Quote lf d = inr lg /\ loggerLevel lg = InfoLevel)
  /\ (In d ["1"; "t"; "T"; "TRUE"; "true"; "True"] ->
     exists lg, init mapUnicode Quote lf d = inr lg /\ loggerLevel lg = DebugLevel)
  /\ (In d ["0"; "f"; "F"; "FALSE"; "false"; "False"] ->
     exists lg, init mapUnicode Quote lf d = inr lg /\ loggerLevel lg = InfoLevel)
  /\ (d <> "" ->
      ~ In d ["1"; "t"; "T"; "TRUE"; "true"; "True";
              "0"; "f"; "F"; "FALSE"; "false"; "False"] ->
      exists msg, init mapUnicode Quote lf d = inl (Fatal msg)).
Proof.
  split; [|split; [|split]].
  - intros ->. unfold init. simpl.
    destruct (_ || _); eexists; split; reflexivity.
  - intros H.
    assert (E : GoStrconv.ParseBool d = (true, None)).
    { unfold GoStrconv.ParseBool. apply existsb_eqb_In in H. rewrite H. reflexivity. }
    assert (L : Nat.eqb (String.length d) 0 = false).
    { simpl in H. intuition (subst; reflexivity). }
    unfold init. rewrite L, E. simpl. eexists; split; reflexivity.
  - intros H.
    assert (E : GoStrconv.ParseBool d = (false, None)).
    { unfold GoStrconv.ParseBool.
      assert (N : existsb (String.eqb d) ["1"; "t"; "T"; "TRUE"; "true"; "True"] = false).
      { apply existsb_eqb_not_In. simpl in *. intuition (subst; discriminate). }
      rewrite N. apply existsb_eqb_In in H. rewrite H. reflexivity. }
    assert (L : Nat.eqb (String.length d) 0 = false).
    { simpl in H. intuition (subst; reflexivity). }
    unfold init. rewrite L, E. simpl.
    destruct (_ || _); eexists; split; reflexivity.
  - intros Hne Hn.
    assert (L : Nat.eqb (String.length d) 0 = false).
    { destruct d; [contradiction|reflexivity]. }
    unfold init, GoStrconv.ParseBool. rewrite L.
    rewrite !existsb_eqb_not_In; [simpl; eauto| |];
      intros C; apply Hn; simpl in *; intuition.
Qed.

Lemma init_debug_level_witness :
  (exists lg, init (fun s => s) (fun s => s) "text" "" = inr lg /\ loggerLevel lg = InfoLevel)
  /\ (exists lg, init (fun s => s) (fun s => s) "text" "True" = inr lg
       /\ loggerLevel lg = DebugLevel)
  /\ (exists lg, init (fun s => s) (fun s => s) "" "0" = inr lg /\ loggerLevel lg = InfoLevel)
  /\ (exists msg, init (fun s => s) (fun s => s) "" "yes" = inl (Fatal msg)).
Proof.
  split; [|split; [|split]].
  - apply (proj1 (init_debug_level (fun s => s) (fun s => s) "text" "")). reflexivity.
  - apply (proj1 (proj2 (init_debug_level (fun s => s) (fun s => s) "text" "True"))).
    simpl. tauto.
  - apply (proj1 (proj2 (proj2 (init_debug_level (fun s => s) (fun s => s) "" "0")))).
    simpl. tauto.
  - apply (proj2 (proj2 (proj2 (init_debug_level (fun s => s) (fun s => s) "" "yes")))).
    + discriminate.
    + simpl. intuition discriminate.
Defined.

Lemma lowerByte_inv (c l u : ascii) :
  GoLower.isUpperByte u = true -> GoLower.lowerByte u = l ->
  GoLower.isUpperByte l = false -> GoLower.isRuneSelf l = false ->
  Ascii.nat_of_ascii l = Ascii.nat_of_ascii u + 32 ->
  GoLower.lowerByte c = l -> c = l \/ c = u.
Proof.
  intros Hu Hul Hl Hr Hn Hc. unfold GoLower.lowerByte in Hc.
  destruct (GoLower.isUpperByte c) eqn:E.
  - right. apply (f_equal Ascii.nat_of_ascii) in Hc.
    unfold GoLower.isUpperByte in E. apply andb_prop in E. destruct E as [E1 E2].
    apply Nat.leb_le in E1. apply Nat.leb_le in E2.
    rewrite Ascii.nat_ascii_embedding in Hc by lia.
    rewrite <- (Ascii.ascii_nat_embedding c), <- (Ascii.ascii_nat_embedding u).
    f_equal. lia.
  - left. exact Hc.
Qed.

Lemma scan_ascii_lowerBytes (s : string) :
  forall h, fst (GoLower.scan s h) = true -> snd (GoLower.scan s h) = false ->
  GoLower.lowerBytes s = s.
Proof.
  induction s as [|c s IH]; intros h H1 H2; [reflexivity|].
  simpl in H1, H2. destruct (GoLower.isRuneSelf c); [discriminate|].
  destruct (GoLower.isUpperByte c) eqn:E.
  - exfalso. rewrite orb_true_r in H2.
    clear - H2. revert H2. generalize s. clear. intros s.
    induction s as [|c s IH]; simpl; [discriminate|].
    destruct (GoLower.isRuneSelf c); [discriminate|]. exact IH.
  - rewrite orb_false_r in H1, H2. simpl. unfold GoLower.lowerByte. rewrite E.
    f_equal. exact (IH h H1 H2).
Qed.

(** [LOG_FORMAT] in [init], for a value made of ASCII bytes: the JSON
    formatter is set exactly when the value is empty or spells [json] in
    any mix of upper and lower case; otherwise logrus's text formatter
    stays.  [DEBUG] has no part in it. *)
Theorem init_formatter (mapUnicode Quote : string -> string) (lf d : string) (lg : Logger) :
  init mapUnicode Quote lf d = inr lg ->
  fst (GoLower.scan lf false) = true ->
  (formatter lg = JSONFormatter <->
   lf = "" \/
   exists a b c e : ascii,
     lf = String a (String b (String c (String e "")))
     /\ (a = "j" \/ a = "J")%char /\ (b = "s" \/ b = "S")%char
     /\ (c = "o" \/ c = "O")%char /\ (e = "n" \/ e = "N")%char).
Proof.
  intros Hi Hs.
  assert (Hf : formatter lg =
               if String.eqb lf "" || String.eqb (GoLower.ToLower mapUnicode lf) "json"
               then JSONFormatter else TextFormatter).
  { unfold init in Hi.
    destruct (negb (Nat.eqb (String.length d) 0)).
    - destruct (GoStrconv.ParseBool d) as [dbg [e|]]; [discriminate|].
      injection Hi as <-. destruct dbg; simpl; destruct (_ || _); reflexivity.
    - injection Hi as <-. destruct (_ || _); reflexivity. }
  assert (Hl : GoLower.ToLower mapUnicode lf = "json" <-> GoLower.lowerBytes lf = "json").
  { unfold GoLower.ToLower.
    destruct (GoLower.scan lf false) as [isA hasU] eqn:E. simpl in Hs. subst isA.
    destruct hasU; simpl; [reflexivity|].
    rewrite (scan_ascii_lowerBytes lf false); rewrite ?E; reflexivity. }
  rewrite Hf. split.
  - intros H. destruct (String.eqb lf "") eqn:E0.
    + left. apply String.eqb_eq. exact E0.
    + right. simpl in H.
      destruct (String.eqb (GoLower.ToLower mapUnicode lf) "json") eqn:E1; [|discriminate].
      apply String.eqb_eq in E1. apply Hl in E1.
      destruct lf as [|a [|b [|c [|e [|? ?]]]]]; try discriminate.
      simpl in E1. injection E1 as Ea Eb Ec Ee.
      exists a, b, c, e. split; [reflexivity|].
      repeat split.
      * apply (lowerByte_inv a "j" "J"); try reflexivity; exact Ea.
      * apply (lowerByte_inv b "s" "S"); try reflexivity; exact Eb.
      * apply (lowerByte_inv c "o" "O"); try reflexivity; exact Ec.
      * apply (lowerByte_inv e "n" "N"); try reflexivity; exact Ee.
  - intros [->|(a & b & c & e & -> & Ha & Hb & Hc & He)]; [reflexivity|].
    assert (E : GoLower.lowerBytes (String a (String b (String c (String e "")))) = "json").
    { destruct Ha, Hb, Hc, He; subst; reflexivity. }
    apply Hl in E. rewrite E. rewrite orb_true_r. reflexivity.
Qed.

Lemma init_formatter_witness :
  exists lg, init (fun s => s) (fun s => s) "JSON" "1" = inr lg
    /\ formatter lg = JSONFormatter.
Proof.
  eexists. split; [reflexivity|].
  apply (proj2 (init_formatter (fun s => s) (fun s => s) "JSON" "1" _ eq_refl eq_refl)).
  right. exists "J"%char, "S"%char, "O"%char, "N"%char.
  repeat split; right; reflexivity.
Defined.

(** ** How [main] ends *)


(** A nil AWS session is the one start-up failure that is not reported by
    [log.Fatalln]: [main] ends in [os.Exit(1)] exactly when the lock name
    and namespace are resolved, the default tags decode, the region
    matches the pattern, and [createAWSSession] returns nil for it. *)
Theorem main_exit_iff_nil_session (x : Externals) (env : Env) (fl : Flags) (c : Z) :
  let name := StringVar (flag_lease_lock_name fl) "k8s-aws-ebs-tagger" in
  let ns := StringVar (flag_lease_lock_namespace fl) (NAMESPACE env) in
  let tags := StringVar (flag_default_tags fl) "" in
  let reg := StringVar (flag_region fl) (AWS_REGION env) in
  let resolved := if Nat.eqb (String.length reg) 0 then fst (getMetadataRegion x) else reg in
  main x env fl = Exit c <->
  c = 1%Z
  /\ name <> ""
  /\ (ns <> "" \/ getCurrentNamespace x <> "")
  /\ (tags = "" \/ snd (json_Unmarshal x tags) = None)
  /\ regexp_Match x (regexpAWSRegion x) resolved = (true, None)
  /\ createAWSSession x resolved = false.
Proof.
  cbv zeta. unfold main, bind.
  set (name := StringVar (flag_lease_lock_name fl) "k8s-aws-ebs-tagger").
  set (ns := StringVar (flag_lease_lock_namespace fl) (NAMESPACE env)).
  set (tags := StringVar (flag_default_tags fl) "").
  set (reg := StringVar (flag_region fl) (AWS_REGION env)).
  unfold checkLeaseLockName, fatalIf, resolveLeaseLockNamespace, loadDefaultTags,
    resolveRegion, checkAWSSession, checkClient.
  fold reg.
  set (resolved := if Nat.eqb (String.length reg) 0 then fst (getMetadataRegion x) else reg).
  destruct (String.eqb name "") eqn:En.
  { apply String.eqb_eq in En. split; [discriminate|]. intros (_ & H & _). contradiction. }
  apply String.eqb_neq in En.
  assert (Hns : forall (k : string -> Outcome) (P : Prop),
            (forall n, k n = Exit c <-> P) ->
            (match (if String.eqb ns ""
                    then if String.eqb (getCurrentNamespace x) ""
                         then inl (Fatal "unable to get lease lock resource namespace (missing lease-lock-namespace flag).")
                         else inr (getCurrentNamespace x)
                    else inr ns) with
             | inl o => o
             | inr a => k a
             end = Exit c <-> (ns <> "" \/ getCurrentNamespace x <> "") /\ P)).
  { intros k P Hk. destruct (String.eqb ns "") eqn:E1.
    - apply String.eqb_eq in E1.
      destruct (String.eqb (getCurrentNamespace x) "") eqn:E2.
      + apply String.eqb_eq in E2. split; [discriminate|]. intros [[H|H] _]; contradiction.
      + apply String.eqb_neq in E2. rewrite Hk. tauto.
    - apply String.eqb_neq in E1. rewrite Hk. tauto. }
  rewrite (Hns _ ((tags = "" \/ snd (json_Unmarshal x tags) = None)
                  /\ regexp_Match x (regexpAWSRegion x) resolved = (true, None)
                  /\ createAWSSession x resolved = false /\ c = 1%Z)).
  { tauto. }
  intros n. clear Hns.
  assert (Hrest : forall m : TagMap,
            match (let '(ok, err) := regexp_Match x (regexpAWSRegion x) resolved in
                   match err with
                   | Some e => inl (Fatal ("Failed to parse AWS_REGION: " ++ e))
                   | None =>
                       if negb ok
                       then inl (Fatal "Given AWS_REGION does not match AWS Region format.")
                       else inr resolved
                   end) with
            | inl o => o
            | inr a =>
                match (if negb (createAWSSession x a) then inl (Exit 1) else inr tt) with
                | inl o => o
                | inr _ =>
                    match
                      match buildClient x (StringVar (flag_kubeconfig fl) "")
                              (StringVar (flag_context fl) "") with
                      | Some e => inl (Fatal ("Unable to create kubernetes client " ++ e))
                      | None => inr tt
                      end
                    with
                    | inl o => o
                    | inr _ =>
                        RunOrDie
                          {| election :=
                               electionConfig name n
                                 (StringVar (flag_lease_id fl) (uuid_New x));
                             leaseID := StringVar (flag_lease_id fl) (uuid_New x);
                             region := a;
                             defaultTags := m;
                             annotationPrefix :=
                               StringVar (flag_annotation_prefix fl) "aws-ebs-tagger";
                             watchNamespace :=
                               StringVar (flag_watch_namespace fl) (WATCH_NAMESPACE env);
                             statusPort := StringVar (flag_status_port fl) "8000";
                             metricsPort := StringVar (flag_metrics_port fl) "8001" |}
                    end
                end
            end = Exit c <->
            regexp_Match x (regexpAWSRegion x) resolved = (true, None)
            /\ createAWSSession x resolved = false /\ c = 1%Z).
  { intros m. destruct (regexp_Match x (regexpAWSRegion x) resolved) as [ok [e|]].
    - split; [discriminate|]. intros [H _]. discriminate.
    - destruct ok; simpl.
      + destruct (createAWSSession x resolved); simpl.
        * destruct (buildClient x _ _); split; try discriminate; intros (_ & H & _);
            discriminate.
        * split; [intros [= <-]; auto|]. intros (_ & _ & ->). reflexivity.
      + split; [discriminate|]. intros [H _]. discriminate. }
  destruct (String.eqb tags "") eqn:Et; simpl negb; cbv iota.
  - apply String.eqb_eq in Et. rewrite Hrest. tauto.
  - apply String.eqb_neq in Et.
    destruct (json_Unmarshal x tags) as [m [e|]]; simpl.
    + split; [discriminate|]. intros [[H|H] _]; [contradiction|discriminate].
    + rewrite Hrest. tauto.
Qed.

Lemma main_exit_iff_nil_session_witness :
  main {| uuid_New := uuid_New Sample.world;
          getCurrentNamespace := "kube-system";
          getMetadataRegion := ("eu-west-1", None);
          regexpAWSRegion := regexpAWSRegion Sample.world;
          regexp_Match := regexp_Match Sample.world;
          json_Unmarshal := Sample.decode;
          createAWSSession := fun _ => false;
          buildClient := fun _ _ => None |}
       Sample.noEnv noFlags = Exit 1.
Proof.
  apply (proj2 (main_exit_iff_nil_session _ Sample.noEnv noFlags 1)).
  repeat split; try reflexivity; try discriminate.
  - right. discriminate.
  - left. reflexivity.
Defined.

(** ** Flags, environment and fallbacks *)

(** A flag given on the command line hides its environment variable,
    also when it is given empty: with [-region=], [-lease-lock-namespace=]
    and [-watch-namespace=] the region is the one of the instance
    metadata, the lock's namespace is the pod's own and the one dispatcher
    watches all namespaces, whatever [AWS_REGION], [NAMESPACE] and
    [WATCH_NAMESPACE] hold; and with the three flags given [main] does
    not depend on the environment at all. *)
Theorem flags_hide_environment
    (x : Externals) (env env' : Env) (fl : Flags) (st : Started) (reg ns watch : string) :
  (main x env (withFlags fl (Some reg) (Some ns) (Some watch))
   = main x env' (withFlags fl (Some reg) (Some ns) (Some watch)))
  /\ (main x env (withFlags fl (Some "") (Some "") (Some "")) = RunOrDie st ->
      region st = fst (getMetadataRegion x)
      /\ Namespace (Lock (election st)) = getCurrentNamespace x
      /\ run (watchNamespace st) = [Go_runWatchNamespaceTask ""]).
Proof.
  split; [reflexivity|].
  intros H. apply main_RunOrDie_inv in H. cbv zeta in H. simpl in H.
  destruct H as (_ & H1 & _ & _ & _ & H2 & _ & _ & _ & H3).
  rewrite H1, H2, H3. repeat split.
Qed.

Lemma flags_hide_environment_witness :
  exists st,
    main Sample.world Sample.env1 (withFlags noFlags (Some "") (Some "") (Some ""))
      = RunOrDie st
    /\ region st = "eu-west-1"
    /\ Namespace (Lock (election st)) = "kube-system"
    /\ run (watchNamespace st) = [Go_runWatchNamespaceTask ""].
Proof.
  eexists. split; [reflexivity|].
  apply (proj2 (flags_hide_environment Sample.world Sample.env1 Sample.env1
                  noFlags _ "" "" "")).
  reflexivity.
Defined.

(** The fallbacks are consulted only when needed: [main] does not depend
    on [json.Unmarshal] when [default-tags] is empty, on
    [getMetadataRegion] when a region is set, or on [getCurrentNamespace]
    when a lock namespace is set. *)
Theorem fallbacks_only_when_needed (x : Externals) (env : Env) (fl : Flags) :
  (forall d, StringVar (flag_default_tags fl) "" = "" ->
     main (withDecoder x d) env fl = main x env fl)
  /\ (forall m, StringVar (flag_region fl) (AWS_REGION env) <> "" ->
     main (withMetadataRegion x m) env fl = main x env fl)
  /\ (forall n, StringVar (flag_lease_lock_namespace fl) (NAMESPACE env) <> "" ->
     main (withCurrentNamespace x n) env fl = main x env fl).
Proof.
  split; [|split].
  - intros d H. unfold main. rewrite H. reflexivity.
  - intros m H. unfold main.
    assert (E : forall r, r <> "" ->
              resolveRegion (withMetadataRegion x m) r = resolveRegion x r).
    { intros r Hr. unfold resolveRegion. destruct r; [contradiction|reflexivity]. }
    unfold bind.
    destruct (checkLeaseLockName _); [reflexivity|].
    change (resolveLeaseLockNamespace (withMetadataRegion x m))
      with (resolveLeaseLockNamespace x).
    destruct (resolveLeaseLockNamespace x _); [reflexivity|].
    change (loadDefaultTags (withMetadataRegion x m)) with (loadDefaultTags x).
    destruct (loadDefaultTags x _); [reflexivity|].
    rewrite (E _ H). reflexivity.
  - intros n H. unfold main.
    assert (E : forall r, r <> "" ->
              resolveLeaseLockNamespace (withCurrentNamespace x n) r
              = resolveLeaseLockNamespace x r).
    { intros r Hr. unfold resolveLeaseLockNamespace.
      destruct (String.eqb r "") eqn:Er; [|reflexivity].
      apply String.eqb_eq in Er. contradiction. }
    rewrite (E _ H). reflexivity.
Qed.

Lemma fallbacks_only_when_needed_witness :
  main (withDecoder Sample.world (fun _ => ([("k", "v")], None))) Sample.env1 noFlags
    = main Sample.world Sample.env1 noFlags
  /\ main (withMetadataRegion Sample.world ("", Some "timeout")) Sample.env1 noFlags
    = main Sample.world Sample.env1 noFlags
  /\ main (withCurrentNamespace Sample.world "") Sample.env1 noFlags
    = main Sample.world Sample.env1 noFlags.
Proof.
  split; [|split].
  - apply (proj1 (fallbacks_only_when_needed Sample.world Sample.env1 noFlags)).
    reflexivity.
  - apply (proj1 (proj2 (fallbacks_only_when_needed Sample.world Sample.env1 noFlags))).
    discriminate.
  - apply (proj2 (proj2 (fallbacks_only_when_needed Sample.world Sample.env1 noFlags))).
    discriminate.
Defined.

(** ** More on [strings.Split] and [run] *)

Lemma pieces_app (c : ascii) (a b : string) :
  pieces c (a ++ String c b) = (pieces c a ++ pieces c b)%list.
Proof.
  induction a as [|y a IH]; simpl.
  - rewrite Ascii.eqb_refl. reflexivity.
  - destruct (Ascii.eqb y c).
    + rewrite IH. reflexivity.
    + rewrite IH. pose proof (pieces_length c a) as HL.
      destruct (pieces c a) as [|p ps]; [discriminate|]. reflexivity.
Qed.

Lemma namespaces_all (w : string) : namespaces w = pieces comma w.
Proof.
  destruct w as [|a w]; [reflexivity|].
  apply namespaces_pieces. discriminate.
Qed.

(** The dispatchers of a setting [a,b] are those of [a] followed by
    those of [b], where an empty side counts as the empty namespace.  So
    a setting that begins or ends with a comma, or has two commas in a
    row, starts a dispatcher for all namespaces beside the named ones. *)
Theorem run_on_comma (a b : string) :
  run (a ++ "," ++ b) = (run a ++ run b)%list
  /\ In (Go_runWatchNamespaceTask "") (run ("," ++ b))
  /\ In (Go_runWatchNamespaceTask "") (run (a ++ ","))
  /\ In (Go_runWatchNamespaceTask "") (run (a ++ ",," ++ b)).
Proof.
  assert (H : forall u v, run (u ++ "," ++ v) = (run u ++ run v)%list).
  { intros u v. unfold run. rewrite !namespaces_all.
    change ("," ++ v) with (String comma v).
    rewrite pieces_app, map_app. reflexivity. }
  assert (H0 : forall v, run ("," ++ v) = (run "" ++ run v)%list)
    by (intros v; exact (H "" v)).
  split; [apply H|]. split; [|split].
  - rewrite H0. left. reflexivity.
  - change (a ++ ",") with (a ++ "," ++ ""). rewrite H.
    apply in_or_app. right. left. reflexivity.
  - change (a ++ ",," ++ b) with (a ++ "," ++ ("," ++ b)). rewrite H.
    apply in_or_app. right. rewrite H0. left. reflexivity.
Qed.

Lemma HasPrefix_skip (p : string) :
  forall s, GoStrings.HasPrefix s p = true ->
  p ++ GoStrings.skip (String.length p) s = s.
Proof.
  induction p as [|b p IH]; intros s H; [reflexivity|].
  destruct s as [|a s]; simpl in H; [discriminate|].
  apply andb_prop in H. destruct H as [E H].
  apply Ascii.eqb_eq in E. subst b. simpl. rewrite (IH s H). reflexivity.
Qed.

Lemma Index_cut (sep : string) :
  forall s m, GoStrings.Index s sep = Some m ->
  GoStrings.take m s ++ sep ++ GoStrings.skip (m + String.length sep) s = s.
Proof.
  induction s as [|a s IH]; intros m H.
  - destruct sep; simpl in H; [|discriminate]. injection H as <-. reflexivity.
  - cbn [GoStrings.Index] in H. destruct (GoStrings.HasPrefix (String a s) sep) eqn:E.
    + injection H as <-. simpl GoStrings.take. simpl Nat.add.
      apply (HasPrefix_skip sep (String a s) E).
    + destruct (GoStrings.Index s sep) as [m'|]; [|discriminate].
      injection H as <-. simpl. rewrite (IH m' eq_refl). reflexivity.
Qed.

Lemma genSplit_loop_nonempty (fuel : nat) (s sep : string) :
  GoStrings.genSplit_loop fuel s sep <> [].
Proof.
  destruct fuel; simpl; [discriminate|].
  destruct (GoStrings.Index s sep); discriminate.
Qed.

Lemma Join_genSplit_loop (sep : string) (fuel : nat) :
  forall s, GoStrings.Join (GoStrings.genSplit_loop fuel s sep) sep = s.
Proof.
  induction fuel as [|f IH]; intros s; [reflexivity|].
  simpl GoStrings.genSplit_loop.
  destruct (GoStrings.Index s sep) as [m|] eqn:E; [|reflexivity].
  pose proof (genSplit_loop_nonempty f
                (GoStrings.skip (m + String.length sep) s) sep) as Hne.
  specialize (IH (GoStrings.skip (m + String.length sep) s)).
  destruct (GoStrings.genSplit_loop f _ sep) as [|q qs]; [contradiction|].
  change (GoStrings.Join (GoStrings.take m s :: q :: qs) sep)
    with (GoStrings.take m s ++ sep ++ GoStrings.Join (q :: qs) sep).
  rewrite IH. apply Index_cut. exact E.
Qed.

(** [strings.Split] and [strings.Join] with the same non-empty separator
    are a round trip: joining the pieces gives the string back, and there
    is always at least one piece. *)
Theorem Split_Join (s sep : string) :
  sep <> "" ->
  GoStrings.Join (GoStrings.Split s sep) sep = s
  /\ GoStrings.Split s sep <> [].
Proof.
  intros _. unfold GoStrings.Split. split.
  - apply Join_genSplit_loop.
  - apply genSplit_loop_nonempty.
Qed.

Lemma Split_Join_witness :
  GoStrings.Join (GoStrings.Split "kube-system, default,,x" ", ") ", "
  = "kube-system, default,,x".
Proof.
  apply (proj1 (Split_Join "kube-system, default,,x" ", " ltac:(discriminate))).
Defined.

(** ** Invariants of the process under the elector *)

Section ElectionInvariants.

Import Election.

Variable cfg : Started.




Lemma spawn_all_watching (gs : list GoStmt) :
  forallb isWatching (map spawn gs) = true.
Proof.
  induction gs as [|g gs IH]; simpl; auto.
Qed.

Lemma watching_until_cancelled s :
  reachable cfg s -> ctxDone s = false -> forallb isWatching (tasks s) = true.
Proof.
  induction 1 as [|s s' _ IH Hstep]; [reflexivity|].
  destruct Hstep; unfold ctxDone in *; simpl in *; intros Hc;
    try (apply IH; exact Hc); try discriminate Hc.
  - apply spawn_all_watching.
  - rewrite orb_true_r in Hc. discriminate Hc.
  - congruence.
Qed.




End ElectionInvariants.



(** A dispatcher task never stops on its own: in every state the process
    reaches, a task that has closed its channel and returned did so after
    its context was cancelled; and a cancelled context stays cancelled. *)
Theorem task_stops_only_after_cancel (cfg : Started) (s : Election.State) :
  Election.reachable cfg s ->
  (forall t, In t (Election.tasks s) -> Election.state t = Election.Stopped ->
     Election.ctxDone s = true)
  /\ (forall s', Election.step cfg s s' -> Election.ctxDone s = true ->
      Election.ctxDone s' = true).
Proof.
  intros R. split.
  - intros t Hin Hst. destruct (Election.ctxDone s) eqn:E; [reflexivity|].
    pose proof (watching_until_cancelled cfg s R E) as Hw.
    rewrite forallb_forall in Hw. specialize (Hw t Hin).
    unfold Election.isWatching in Hw. rewrite Hst in Hw. discriminate Hw.
  - intros s' Hstep. destruct Hstep; unfold Election.ctxDone; simpl; intros Hc;
      try exact Hc; try reflexivity.
    apply orb_true_r.
Qed.

Lemma task_stops_only_after_cancel_witness :
  exists s, Election.reachable Sample.started s
    /\ map Election.state (Election.tasks s) = [Election.Stopped; Election.Watching]
    /\ Election.ctxDone s = true.
Proof.
  pose proof (Election.reach_init Sample.started) as R.
  advance R (Election.Acquire Sample.started).
  advance R (Election.StartedLeading Sample.started).
  advance R (Election.Signal Sample.started).
  eassert (R' : Election.reachable Sample.started _).
  { eapply Election.reach_step; [exact R|].
    eapply (Election.TaskStops Sample.started _ 0); reflexivity. }
  simpl in R'.
  eexists. split; [exact R'|]. split; [reflexivity|].
  apply (proj1 (task_stops_only_after_cancel Sample.started _ R')
           {| Election.namespace := "ns1"; Election.state := Election.Stopped |}).
  - left. reflexivity.
  - reflexivity.
Defined.


